(** * Declared shapes of the ESX typings

    The repository consists of two TypeScript declaration files,
    [src/@types/common.d.ts] and [src/@types/server.d.ts].  They are
    embedded here as data: a syntax of TypeScript type expressions, the
    members of interface and class bodies, and the two files as lists of
    top-level items, entry for entry in source order.  The properties
    below are then decided by functions over that syntax.

    Block comments are kept line by line, without the comment markers,
    blank lines and indentation, and with each run of blanks as one
    blank.  The marker text that follows the last closing brace of
    [common.d.ts] is not TypeScript and is left out. *)

From Stdlib Require Import String Ascii List Bool Arith Lia Relations.
Import ListNotations.
Open Scope string_scope.
Open Scope list_scope.

Scheme All for list.

(** ** Type expressions *)

(** How a named position (a parameter, or a property of an object type)
    is declared: [name: T], [name?: T] or [...name: T]. *)
Inductive arity : Type := Required | Optional | Rest.

Inductive ty : Type :=
| TNumber
| TString
| TBoolean
| TAny
| TVoid
| TUndefined
| TNull
| TNever
| TLitTrue
| TRef (name : string) (args : list ty)
| TArray (elem : ty)
| TTuple (elems : list ty)
| TUnion (l r : ty)
| TInter (l r : ty)
| TFun (params : list slot) (ret : ty)
| TObj (fields : list slot)
with slot : Type :=
| Slot (sname : string) (sarity : arity) (stype : ty).

Scheme ty_slot_ind := Induction for ty Sort Prop
  with slot_ty_ind := Induction for slot Sort Prop.

Definition Named (name : string) : ty := TRef name [].
Definition req (name : string) (t : ty) : slot := Slot name Required t.
Definition opt (name : string) (t : ty) : slot := Slot name Optional t.
Definition rest (name : string) (t : ty) : slot := Slot name Rest t.

Definition sname (s : slot) : string := let 'Slot n _ _ := s in n.
Definition sarity (s : slot) : arity := let 'Slot _ a _ := s in a.
Definition stype (s : slot) : ty := let 'Slot _ _ t := s in t.

(** ** Members, declarations and files *)

(** A type parameter [T = D] of a generic signature. *)
Inductive tparam : Type :=
| TParam (tpname : string) (tpdefault : option ty).

Record method : Type := {
  mname : string;
  mtparams : list tparam;
  mparams : list slot;
  mret : ty;
  mbody : option string
}.

(** One entry of an interface or class body, comments included. *)
Inductive member : Type :=
| Property (s : slot)
| Method (m : method)
| DocComment (lines : list string)
| LineComment (text : string).

(** A method declared by its signature only, [name<tps>(ps): r;]. *)
Definition signature (name : string) (tps : list tparam)
    (ps : list slot) (r : ty) : member :=
  Method {| mname := name; mtparams := tps; mparams := ps; mret := r;
            mbody := None |}.

Inductive decl_kind : Type := KInterface | KClass.

(** [export interface ...] or [declare interface ...]. *)
Inductive visibility : Type := Exported | Ambient.

Record decl : Type := {
  dkind : decl_kind;
  dvis : visibility;
  dname : string;
  dextends : list string;
  dimplements : list string;
  dbody : list member
}.

Inductive item : Type :=
| Import (names : list string) (from : string)
| Decl (d : decl)
| Statement (text : string).

(** The file [fdir/fstem.d.ts]. *)
Record file : Type := {
  fdir : string;
  fstem : string;
  fitems : list item
}.

(** ** src/@types/common.d.ts and src/@types/server.d.ts *)

Definition PlayerData : decl :=
  {| dkind := KInterface; dvis := Exported; dname := "PlayerData";
     dextends := []; dimplements := [];
     dbody :=
  [ Property (req "accounts" (TArray (Named "Account")));
    Property (req "coords" (Named "Coords"));
    Property (req "group" TString);
    Property (req "identifier" TString);
    Property (req "inventory" (TArray (Named "InventoryItem")));
    Property (req "job" (Named "Job"));
    Property (req "loadout" (TArray (Named "LoadoutItem")));
    Property (req "name" TString);
    Property (req "playerId" TNumber);
    Property (req "source" TNumber);
    Property (req "variables" (TRef "Record" [TString; TAny]));
    Property (req "weight" TNumber);
    Property (req "maxWeight" TNumber);
    Property (req "metadata" (TRef "Record" [TString; TAny])) ] |}.

Definition InventoryItem : decl :=
  {| dkind := KInterface; dvis := Exported; dname := "InventoryItem";
     dextends := []; dimplements := [];
     dbody :=
  [ Property (req "name" TString);
    Property (req "count" TNumber);
    Property (req "label" TString);
    Property (req "weight" TNumber);
    Property (req "usable" TBoolean);
    Property (req "rare" TBoolean);
    Property (req "canRemove" TBoolean) ] |}.

Definition Job : decl :=
  {| dkind := KInterface; dvis := Exported; dname := "Job";
     dextends := []; dimplements := [];
     dbody :=
  [ Property (req "id" TNumber);
    Property (req "name" TString);
    Property (req "label" TString);
    Property (req "grade" TNumber);
    Property (req "grade_name" TString);
    Property (req "grade_label" TString);
    Property (req "grade_salary" TNumber);
    Property (req "skin_male" (TArray TAny));
    Property (req "skin_female" (TArray TAny)) ] |}.

Definition LoadoutItem : decl :=
  {| dkind := KInterface; dvis := Exported; dname := "LoadoutItem";
     dextends := []; dimplements := [];
     dbody :=
  [ Property (req "name" TString);
    Property (req "ammo" TNumber);
    Property (req "label" TString);
    Property (req "components" (TArray TAny)) ] |}.

Definition Coords : decl :=
  {| dkind := KInterface; dvis := Exported; dname := "Coords";
     dextends := []; dimplements := [];
     dbody :=
  [ Property (req "x" TNumber);
    Property (req "y" TNumber);
    Property (req "Z" TNumber) ] |}.

Definition Account : decl :=
  {| dkind := KInterface; dvis := Exported; dname := "Account";
     dextends := []; dimplements := [];
     dbody :=
  [ Property (req "name" TString);
    Property (req "money" TNumber);
    Property (req "label" TString) ] |}.

Definition Weapon : decl :=
  {| dkind := KInterface; dvis := Exported; dname := "Weapon";
     dextends := []; dimplements := [];
     dbody :=
  [ Property (req "name" TString);
    Property (req "label" TString);
    Property (req "components" (TArray (Named "WeaponComponent"))) ] |}.

Definition WeaponComponent : decl :=
  {| dkind := KInterface; dvis := Exported; dname := "WeaponComponent";
     dextends := []; dimplements := [];
     dbody :=
  [ Property (req "name" TString);
    Property (req "hash" TNumber);
    Property (req "label" TString) ] |}.

Definition Math : decl :=
  {| dkind := KInterface; dvis := Exported; dname := "Math";
     dextends := []; dimplements := [];
     dbody :=
  [ DocComment
      ["This function rounds off a number, and optionally you can parse how many decimals you want (defaults to 0)";
       "@param value";
       "@param numDecimalPlaces"];
    signature "Round" []
      [req "value" TNumber; opt "numDecimalPlaces" TNumber]
      TNumber;
    DocComment
      ["This function groups numbers, making them easier to understand by humans. Used in most nofications when money is showed, for example when buying a new car at the vehicle shop.";
       "@param number"];
    signature "GroupDigits" []
      [req "number" TNumber]
      TString;
    DocComment
      ["This function trims an text, removing all trailing whitespaces. Often used when sanitizing the GetVehicleNumberPlateText() native.";
       "@param value"];
    signature "Trim" []
      [req "value" TString]
      TString ] |}.

Definition Table : decl :=
  {| dkind := KInterface; dvis := Exported; dname := "Table";
     dextends := []; dimplements := [];
     dbody :=
  [ DocComment
      ["nil proof alternative to #table"];
    signature "SizeOf" []
      [req "t" TAny]
      TNumber;
    signature "Set" []
      [req "t" TAny]
      (TRef "Record" [TAny; TLitTrue]);
    signature "IndexOf" []
      [req "t" TAny; req "value" TAny]
      TNumber;
    signature "LastIndexOf" []
      [req "t" TAny; req "value" TAny]
      TNumber;
    signature "Find" []
      [req "t" TAny; req "cb" (TFun [req "element" TAny] TBoolean)]
      (TUnion TAny TUndefined);
    signature "FindIndex" []
      [req "t" TAny; req "cb" (TFun [req "element" TAny] TBoolean)]
      TNumber;
    signature "Filter" [TParam "T" (Some TAny)]
      [req "t" (Named "T"); req "cb" (TFun [req "element" TAny] TBoolean)]
      (TRef "Partial" [Named "T"]);
    signature "Map" []
      [req "t" TAny; req "cb" (TFun [req "element" TAny] TAny)]
      TAny;
    signature "Reverse" []
      [req "t" TAny; req "cb" (TFun [req "element" TAny] TBoolean)]
      TAny;
    signature "Clone" [TParam "T" (Some TAny)]
      [req "t" (Named "T")]
      (Named "T");
    signature "Concat" [TParam "T1" (Some TAny); TParam "T2" (Some TAny)]
      [req "t1" (Named "T1"); req "t2" (Named "T2")]
      (TInter (Named "T1") (Named "T2"));
    signature "Join" []
      [req "t" TAny; req "sep" TString]
      TString;
    signature "TableContains" []
      [req "tab" TAny; req "val" TAny]
      TBoolean;
    DocComment
      ["Sort function for pairs"];
    signature "Sort" [TParam "T" (Some TAny)]
      [req "t" (Named "T");
       opt "order" (TFun [req "t" (Named "T"); req "a" TAny; req "b" TAny] TBoolean)]
      (Named "T") ] |}.

Definition Common : decl :=
  {| dkind := KInterface; dvis := Exported; dname := "Common";
     dextends := []; dimplements := [];
     dbody :=
  [ DocComment
      ["This function gets a random string, with the defined length.";
       "@param length"];
    signature "GetRandomString" []
      [req "length" TNumber]
      TString;
    LineComment "TODO: GetConfig";
    LineComment "TODO: GetWeapon";
    LineComment "TODO: GetWeaponFromHash";
    DocComment
      ["This function gets the complete weapon list and label."];
    signature "GetWeaponList" []
      []
      (TArray (Named "Weapon"));
    DocComment
      ["This function gets the weapon label for a given weapon";
       "@param weaponName"];
    signature "GetWeaponLabel" []
      [req "weaponName" TString]
      TString;
    DocComment
      ["@param weaponName";
       "@param weaponComponent"];
    signature "GetWeaponComponent" []
      [req "weaponName" (TUnion TString TNumber);
       req "weaponComponent" TString]
      (Named "WeaponComponent");
    DocComment
      ["This function dumps the given array to a readable string with a tree structure.";
       "@param array"];
    signature "DumpTable" []
      [req "array" (TArray TAny)]
      TVoid;
    LineComment "TODO: Round";
    Property (req "Math" (Named "Math"));
    Property (req "Table" (Named "Table"));
    DocComment
      ["This function sets a timeout requiring two arguments, msec (milliseconds), and cb (callback).";
       "@param milliseconds";
       "@param callback";
       "@returns Timeout id"];
    signature "SetTimeout" []
      [req "milliseconds" TNumber; req "callback" (TFun [] TVoid)]
      TNumber;
    DocComment
      ["This function clears a timeout from the ESX.SetTimeout function.";
       "@param id"];
    signature "ClearTimeout" []
      [req "id" TNumber]
      TVoid ] |}.

Definition common_d_ts : file :=
  {| fdir := "src/@types"; fstem := "common";
     fitems :=
  [ Decl PlayerData;
    Decl InventoryItem;
    Decl Job;
    Decl LoadoutItem;
    Decl Coords;
    Decl Account;
    Decl Weapon;
    Decl WeaponComponent;
    Decl Math;
    Decl Table;
    Decl Common ] |}.

Definition JobGrade : decl :=
  {| dkind := KInterface; dvis := Ambient; dname := "JobGrade";
     dextends := []; dimplements := [];
     dbody :=
  [ Property (req "grade" TNumber);
    Property (req "label" TString);
    Property (req "salary" TNumber);
    Property (req "skin_male" (TArray TAny));
    Property (req "skin_female" (TArray TAny)) ] |}.

Definition ConfigJob : decl :=
  {| dkind := KInterface; dvis := Ambient; dname := "ConfigJob";
     dextends := []; dimplements := [];
     dbody :=
  [ Property (req "name" TString);
    Property (req "label" TString);
    DocComment
      ["Grades index by strings: `'0'`, `'1'`, `'2'` etc."];
    Property (req "grades" (TRef "Record" [TString; Named "JobGrade"])) ] |}.

Definition XPlayer : decl :=
  {| dkind := KClass; dvis := Exported; dname := "XPlayer";
     dextends := []; dimplements := ["PlayerData"];
     dbody :=
  [ Property (req "accounts" (TArray (Named "Account")));
    Property (req "coords" (Named "Coords"));
    Property (req "group" TString);
    Property (req "identifier" TString);
    Property (req "inventory" (TArray (Named "InventoryItem")));
    Property (req "job" (Named "Job"));
    Property (req "loadout" (TArray (Named "LoadoutItem")));
    Property (req "name" TString);
    Property (req "playerId" TNumber);
    Property (req "source" TNumber);
    Property (req "variables" (TRef "Record" [TString; TAny]));
    Property (req "weight" TNumber);
    Property (req "maxWeight" TNumber);
    Property (req "metadata" (TRef "Record" [TString; TAny]));
    DocComment
      ["This function adds account money.";
       "@param account An valid account, a list of valid accounts can be found in the configuration file";
       "@param money Amount of money to add"];
    signature "addAccountMoney" []
      [req "account" TString; req "money" TNumber]
      TVoid;
    DocComment
      ["This function adds an inventory item.";
       "@param item Item name";
       "@param count Amount of item to add"];
    signature "addInventoryItem" []
      [req "item" TString; req "count" TNumber]
      TVoid;
    DocComment
      ["This function adds money.";
       "@param money Amount of money to add"];
    signature "addMoney" []
      [req "money" TNumber]
      TVoid;
    DocComment
      ["This function adds a weapon.";
       "@param weaponName Weapon name";
       "@param ammo Ammo count"];
    signature "addWeapon" []
      [req "weaponName" TString; req "ammo" TNumber]
      TVoid;
    DocComment
      ["This function adds the parsed ammo to the player weapon";
       "@param weaponName Weapon name";
       "@param ammoCount Ammo to add"];
    signature "addWeaponAmmo" []
      [req "weaponName" TString; req "ammoCount" TNumber]
      TVoid;
    DocComment
      ["This function adds a weapon component to a weapon, if the player has it, the available component list can be found in the weapon configuration file.";
       "@example xPlayer.addWeapon('WEAPON_ASSAULTRIFLE', 50)";
       "xPlayer.addWeaponComponent('WEAPON_ASSAULTRIFLE', 'clip_drum')";
       "@param weaponName";
       "@param weaponComponent"];
    signature "addWeaponComponent" []
      [req "weaponName" TString; req "weaponComponent" TString]
      TVoid;
    DocComment
      ["This function is used to determinate if a player can carry an item, and is the successor to the previous item limit checks";
       "@param item Item name";
       "@param count Item count"];
    signature "canCarryItem" []
      [req "item" TString; req "count" TNumber]
      TBoolean;
    DocComment
      ["This function is used to determinate if a player can swap an item for some other item.";
       "@param firstItem First item name";
       "@param firstItemCount First item count";
       "@param testItem Test item name";
       "@param testItemCount Test item count";
       "@example if xPlayer.canSwapItem('bread', 1, 'water', 1) then";
       "xPlayer.removeInventoryItem('bread', 1)";
       "xPlayer.addInventoryItem('water', 1)";
       "else";
       "xPlayer.showNotification('You don\'t have enough inventory space.')";
       "end"];
    signature "canSwapItem" []
      [req "firstItem" TString;
       req "firstItemCount" TNumber;
       req "testItem" TString;
       req "testItemCount" TNumber]
      TBoolean;
    DocComment
      ["@param index Index or table of indexes to clear"];
    signature "clearMeta" []
      [req "index" (TUnion TString (TArray TString))]
      TVoid;
    DocComment
      ["@param index Meta index";
       "@param subIndex Met sub index"];
    signature "getMeta" []
      [opt "index" TString; opt "subIndex" TString]
      TAny;
    DocComment
      ["This function gets details (returned in an table) for an account.";
       "@param account"];
    signature "getAccount" []
      [req "account" TString]
      (Named "Account");
    DocComment
      ["The returned table contains an index-value table of all accounts, and for each child there is a key-value tabl with the following content:";
       "@field name - Account name";
       "@field money - Account balance";
       "@field label - Account label"];
    signature "getAccounts" []
      []
      (TArray (Named "Account"));
    DocComment
      ["TODO: Asked about serialization over events, need to test";
       "This function returns the player's current coordinates on the server. The optional boolean useVector argument is for returning a vector3 type. Keep in mind that the coords sync interval can be adjusted in the configuration file in case you want to get precise player coords.";
       "@param useVector Returns an vector3 type if set to true, and normally a table with x, y and z pairs"];
    signature "getCoords" []
      [req "useVector" TBoolean]
      (Named "Coords");
    DocComment
      ["This function gets the current player group."];
    signature "getGroup" []
      []
      TString;
    DocComment
      ["This function returns the Rockstar identifier used"];
    signature "getIdentifier" []
      []
      TString;
    DocComment
      ["This function returns the entire player inventory.";
       "@param minimal Return inventory in a key-value table where key is item name, and only add items with count over 0 to that table."];
    signature "getInventory" []
      [req "minimal" TBoolean]
      (TArray (Named "InventoryItem"));
    DocComment
      ["This function gets an inventory item.";
       "@param item Item name"];
    signature "getInventoryItem" []
      [req "item" TString]
      (Named "InventoryItem");
    DocComment
      ["This function returns the current player job object."];
    signature "getJob" []
      []
      (Named "Job");
    DocComment
      ["This function returns an array of Loadout Items";
       "@param minimal Whether to return items that have a count > 0"];
    signature "getLoadout" []
      [opt "minimal" TBoolean]
      (TArray (Named "LoadoutItem"));
    DocComment
      ["This function gets the current cash balance."];
    signature "getMoney" []
      []
      TNumber;
    DocComment
      ["This function returns the player name."];
    signature "getName" []
      []
      TString;
    DocComment
      ["This functions returns the loadoutNum and a weapon object for the weapon if the player has it.";
       "@param weaponName";
       "@example";
       "const {loadoutNum, weapon} = xPlayer.getWeapon('WEAPON_PISTOL')";
       "if (weapon) {";
       "console.log(xPlayer.loadout[loadoutNum].label)";
       "} else {";
       "console.log('weapon not found!')";
       "}"];
    signature "getWeapon" []
      [req "weaponName" TString]
      (TTuple [TNumber; Named "LoadoutItem"]);
    DocComment
      ["This function Returns the tint index of the specified weapon from the Player.";
       "@param weaponName Weapon name"];
    signature "getWeaponTint" []
      [req "weaponName" TString]
      TNumber;
    DocComment
      ["This functions returns the current player weight in a number type, can be used to do calculations."];
    signature "getWeight" []
      []
      TNumber;
    DocComment
      ["This functions checks if the player has the specified item, if they do, it will return item and item count :)";
       "@param item Item name"];
    signature "hasItem" []
      [req "item" TString]
      (TTuple [Named "InventoryItem"; TNumber]);
    DocComment
      ["This functions returns if the player has the specified weapon.";
       "@param weaponName"];
    signature "hasWeapon" []
      [req "weaponName" TString]
      TBoolean;
    DocComment
      ["This functions returns an boolean if the player has the specified weapon component for a given weapon. The available component list can be found in the weapon configuration file (config.weapons.lua).";
       "@param weaponName";
       "@param weaponComponent"];
    signature "hasWeaponComponent" []
      [req "weaponName" TString; req "weaponComponent" TString]
      TBoolean;
    DocComment
      ["This function kicks a player with a reason.";
       "@param reason Kick reason, will be shown to player"];
    signature "kick" []
      [opt "reason" TString]
      TVoid;
    DocComment
      ["This function removes account money.";
       "@param account Valid accounts can be found in configuration file";
       "@param money Amount of money"];
    signature "removeAccountMoney" []
      [req "account" TString; req "money" TNumber]
      TVoid;
    DocComment
      ["This function removes an inventory item.";
       "@param item Item name, valid items can be found in database table items";
       "@param count Amount of the item to remove"];
    signature "removeInventoryItem" []
      [req "item" TString; req "count" TNumber]
      TVoid;
    DocComment
      ["Removes money from a player's cash account.";
       "@param money Amount of money to remove"];
    signature "removeMoney" []
      [req "money" TNumber]
      TVoid;
    DocComment
      ["This function removes a weapon from the player.";
       "@param weaponName Weapon name"];
    signature "removeWeapon" []
      [req "weaponName" TString]
      TVoid;
    DocComment
      ["This function removes the parsed ammo to the player weapon";
       "@param weaponName Weapon name";
       "@param ammoCount Ammo count"];
    signature "removeWeaponAmmo" []
      [req "weaponName" TString; req "ammoCount" TNumber]
      TVoid;
    DocComment
      ["This function removes a weapon component from a player, if the player has it. The available component list can be found in the weapon configuration file (config.weapons.lua).";
       "@param weaponName Weapon name";
       "@param weaponComponent Weapon component"];
    signature "removeWeaponComponent" []
      [req "weaponName" TString; req "weaponComponent" TString]
      TVoid;
    DocComment
      ["Sets a value in the player's metadata.";
       "@param index Meta index";
       "@param value Meta value";
       "@param subValue Meta subvalue"];
    signature "setMeta" []
      [req "index" TString; req "value" TAny; opt "subValue" TString]
      TVoid;
    DocComment
      ["This function sets money for an account.";
       "@param account Valid accounts can be found in configuration file";
       "@param money Amount of money"];
    signature "setAccountMoney" []
      [req "account" TString; req "money" TNumber]
      TVoid;
    DocComment
      ["This function sets the player's coords (teleports)";
       "@param coords The coords to be teleported to. Supports both vector3 and table types. If using a table type you can also specify `heading` to set the entity heading upon teleportation"];
    signature "setCoords" []
      [req "coords" (TInter (Named "Coords") (TObj [opt "heading" TNumber]))]
      TVoid;
    DocComment
      ["This function sets an inventory item count";
       "WARNING: This function will not check if the player weight limit exceeds. Recommended to use in comibation with xPlayer.canCarryItem(item, count)";
       "@param item Item name, valid items can be found in database table items";
       "@param count New item count"];
    signature "setInventoryItem" []
      [req "item" TString; req "count" TNumber]
      TVoid;
    DocComment
      ["This functions sets the player job, the job must be defined in the `jobs` database table.";
       "@param name Job name";
       "@param grade Job grade"];
    signature "setJob" []
      [req "name" TString; req "grade" (TUnion TString TNumber)]
      TVoid;
    DocComment
      ["This functions sets the max weight that the player can hold in their inventory.";
       "@param newWeight New max weight";
       "@example";
       "// Adds 30 to the max weight if they are police :)";
       "if (xPlayer.job.name == 'police') {";
       "xPlayer.setMaxWeight(ESX.GetConfig().MaxWeight + 30)";
       "}"];
    signature "setMaxWeight" []
      [req "newWeight" TNumber]
      TVoid;
    DocComment
      ["This function sets the player cash balance.";
       "@param money New money amount"];
    signature "setMoney" []
      [req "money" TNumber]
      TVoid;
    DocComment
      ["This function sets the player name.";
       "@param newName New player name"];
    signature "setName" []
      [req "newName" TString]
      TVoid;
    DocComment
      ["This function sets the player weapon tint from the tint index";
       "@param weaponName Weapon name";
       "@param weaponTintIndex Weapon tint index"];
    signature "setWeaponTint" []
      [req "weaponName" TString; req "weaponTintIndex" TNumber]
      TVoid;
    DocComment
      ["This function shows a help notification with a message. These help notification support displaying button inputs, see this list";
       "@param msg The message to display";
       "@param thisFrame Only show this frame? Should be used with scripts that show notifications in a loop";
       "@param beep Play the beep sound?";
       "@param duration Duration to show the help notification in milliseconds"];
    signature "showHelpNotification" []
      [req "msg" TString;
       req "thisFrame" TBoolean;
       req "beep" TBoolean;
       req "duration" TNumber]
      TVoid;
    DocComment
      ["This function shows a basic notification to the player.";
       "@param msg The message to display"];
    signature "showNotification" []
      [req "msg" TString]
      TVoid;
    DocComment
      ["This function triggers an client event for the player.";
       "@param eventName Event name";
       "@param args Variable number of arguments"];
    signature "triggerEvent" []
      [req "eventName" TString; rest "args" (TArray TAny)]
      TVoid;
    DocComment
      ["This is an internal function used to update player coords, DO NOT USE IT."];
    signature "updateCoords" []
      []
      TVoid ] |}.

Definition OneSync : decl :=
  {| dkind := KClass; dvis := Exported; dname := "OneSync";
     dextends := []; dimplements := [];
     dbody :=
  [ DocComment
      ["An async function that creates server-sided objects.";
       "**Note:** CreateObject is a RPC (Remote Procedure Call) Native, which means that it requres there to be a valid client nearby for it to be able to spawn!";
       "@param model Model of the object - can either be a string or a hash";
       "@param coords The coords where the object should be spawned.";
       "@param heading The heading the object will be facing";
       "@param cb The returned function when the vehicle has been spawned. The invoked function has 1 argument which is the entity's network id."];
    signature "SpawnObject" []
      [req "model" (TUnion TString TNumber);
       req "coords" (Named "Coords");
       req "heading" TNumber;
       opt "cb" (TFun [req "netId" TNumber] TVoid)]
      TVoid;
    DocComment
      ["An async function that creates server-sided peds.";
       "**Note:** CreateObject is a RPC (Remote Procedure Call) Native, which means that it requres there to be a valid client nearby for it to be able to spawn!";
       "@param model Model of the ped - can either be a string or a hash";
       "@param coords The coords where the ped should be spawned.";
       "@param heading The heading the ped will be facing";
       "@param cb The returned function when the ped has been spawned. The invoked function has 1 argument which is the ped's network id."];
    signature "SpawnPed" []
      [req "model" (TUnion TString TNumber);
       req "coords" (Named "Coords");
       req "heading" TNumber;
       opt "cb" (TFun [req "netId" TNumber] TVoid)]
      TVoid;
    DocComment
      ["An async function that creates a server-sided ped and then places them into a specific vehicle.";
       "**Note:** CreateObject is a RPC (Remote Procedure Call) Native, which means that it requres there to be a valid client nearby for it to be able to spawn!";
       "@param model Model of the ped - can either be a string or a hash";
       "@param vehicle The handle of the vehicle the ped will be spawned into";
       "@param seat Seat index that the ped will be sat in";
       "@param cb The returned function when the ped has been spawned. The invoked function has 1 argument which is the ped's network id."];
    signature "SpawnPedInVehicle" []
      [req "model" (TUnion TString TNumber);
       req "vehicle" TNumber;
       req "seat" TNumber;
       opt "cb" (TFun [req "netId" TNumber] TVoid)]
      TVoid;
    DocComment
      ["@param model You can either specify a model, for example `blista`, or a vehicle hash.";
       "@param coords The coords where the vehicle should be spawned. You can also parse a vector type without any issues";
       "@param heading The heading to spawn the vehicle at";
       "@param Properties Sets the properties that the vehicle spawns with uses the same structure as `ESX.Game.SetVehicleProperties`";
       "@param cb The returned function when the vehicle has been spawned. The invoked function has 1 argument which is the **NetId** of the vehicle"];
    signature "SpawnVehicle" []
      [req "model" (TUnion TString TNumber);
       req "coords" (Named "Coords");
       req "heading" TNumber;
       opt "Properties" TAny;
       opt "cb" (TFun [req "netId" TNumber] TVoid)]
      TVoid ] |}.

Definition server_d_ts : file :=
  {| fdir := "src/@types"; fstem := "server";
     fitems :=
  [ Import ["Account"; "Coords"; "InventoryItem"; "Job"; "LoadoutItem"; "PlayerData"] "./common";
    Decl JobGrade;
    Decl ConfigJob;
    Decl XPlayer;
    Decl OneSync ] |}.


(** The two files, the second importing from the first. *)
Definition program : list file := [common_d_ts; server_d_ts].

(** ** Reading the declarations *)

Definition properties (d : decl) : list slot :=
  flat_map (fun e => match e with Property s => [s] | _ => [] end) (dbody d).

Definition methods (d : decl) : list method :=
  flat_map (fun e => match e with Method m => [m] | _ => [] end) (dbody d).

Definition decls (f : file) : list decl :=
  flat_map (fun i => match i with Decl d => [d] | _ => [] end) (fitems f).

Definition all_decls : list decl := flat_map decls program.

Definition declared : list string := map dname all_decls.

Definition mem (n : string) (l : list string) : bool :=
  existsb (String.eqb n) l.

Fixpoint assoc {A : Type} (n : string) (l : list (string * A)) : option A :=
  match l with
  | [] => None
  | (k, v) :: l' => if String.eqb k n then Some v else assoc n l'
  end.

Definition find_slot (n : string) (l : list slot) : option slot :=
  find (fun s => String.eqb (sname s) n) l.

Definition find_method (n : string) (d : decl) : option method :=
  find (fun m => String.eqb (mname m) n) (methods d).

Definition lookup_decl (n : string) (ds : list decl) : option decl :=
  find (fun d => String.eqb (dname d) n) ds.

(** The documentation block attached to the method named [n]: the
    block comment that precedes it in the body. *)
Fixpoint doc_before (n : string) (pending : list string)
    (body : list member) : list string :=
  match body with
  | [] => []
  | DocComment ls :: body' => doc_before n ls body'
  | LineComment _ :: body' => doc_before n pending body'
  | Property _ :: body' => doc_before n [] body'
  | Method m :: body' =>
      if String.eqb (mname m) n then pending else doc_before n [] body'
  end.

Definition doc_of (n : string) (d : decl) : list string :=
  doc_before n [] (dbody d).

(** [contains needle hay]: [needle] occurs in [hay]. *)
Fixpoint contains (needle hay : string) : bool :=
  String.prefix needle hay ||
  match hay with
  | EmptyString => false
  | String _ hay' => contains needle hay'
  end.

Definition doc_mentions (needle : string) (doc : list string) : bool :=
  existsb (contains needle) doc.

(** ** Equality of type expressions *)

Definition arity_eqb (a b : arity) : bool :=
  match a, b with
  | Required, Required | Optional, Optional | Rest, Rest => true
  | _, _ => false
  end.

Definition list_eqb {A : Type} (eqb : A -> A -> bool)
    : list A -> list A -> bool :=
  fix go (xs ys : list A) : bool :=
    match xs, ys with
    | [], [] => true
    | x :: xs', y :: ys' => eqb x y && go xs' ys'
    | _, _ => false
    end.

Fixpoint ty_eqb (a b : ty) : bool :=
  match a, b with
  | TNumber, TNumber | TString, TString | TBoolean, TBoolean
  | TAny, TAny | TVoid, TVoid | TUndefined, TUndefined
  | TNull, TNull | TNever, TNever | TLitTrue, TLitTrue => true
  | TRef n xs, TRef m ys => String.eqb n m && list_eqb ty_eqb xs ys
  | TArray x, TArray y => ty_eqb x y
  | TTuple xs, TTuple ys => list_eqb ty_eqb xs ys
  | TUnion x1 x2, TUnion y1 y2 => ty_eqb x1 y1 && ty_eqb x2 y2
  | TInter x1 x2, TInter y1 y2 => ty_eqb x1 y1 && ty_eqb x2 y2
  | TFun ps x, TFun qs y => list_eqb slot_eqb ps qs && ty_eqb x y
  | TObj ps, TObj qs => list_eqb slot_eqb ps qs
  | _, _ => false
  end
with slot_eqb (s t : slot) : bool :=
  match s, t with
  | Slot n a x, Slot m b y => String.eqb n m && arity_eqb a b && ty_eqb x y
  end.

Definition tparam_eqb (p q : tparam) : bool :=
  match p, q with
  | TParam n None, TParam m None => String.eqb n m
  | TParam n (Some a), TParam m (Some b) => String.eqb n m && ty_eqb a b
  | _, _ => false
  end.

Definition method_eqb (m1 m2 : method) : bool :=
  String.eqb (mname m1) (mname m2) &&
  list_eqb tparam_eqb (mtparams m1) (mtparams m2) &&
  list_eqb slot_eqb (mparams m1) (mparams m2) &&
  ty_eqb (mret m1) (mret m2).

(** ** Checking the declaration files

    The part of TypeScript's checking that declaration files exercise:
    imports resolve to exported names, every type name is in scope and
    takes the right number of type arguments, parameter lists are
    ordered, members are not declared twice, nothing carries an
    implementation, and a class provides what it says it implements. *)

(** Library types usable without a declaration, with the number of type
    arguments each takes. *)
Definition lib_types : list (string * nat) := [("Record", 2); ("Partial", 1)].

Fixpoint nodupb (l : list string) : bool :=
  match l with
  | [] => true
  | x :: l' => negb (mem x l') && nodupb l'
  end.

(** No required parameter after an optional one; a rest parameter last. *)
Fixpoint params_ordered (seen_optional : bool) (ps : list slot) : bool :=
  match ps with
  | [] => true
  | Slot _ Required _ :: ps' => negb seen_optional && params_ordered false ps'
  | Slot _ Optional _ :: ps' => params_ordered true ps'
  | Slot _ Rest _ :: ps' => match ps' with [] => true | _ => false end
  end.

Definition not_rest (s : slot) : bool :=
  match sarity s with Rest => false | _ => true end.

(** [wf_ty tvars names t]: every name in [t] is a type parameter in
    [tvars], a declaration in [names], or a library type at its arity. *)
Fixpoint wf_ty (tvars names : list string) (t : ty) : bool :=
  match t with
  | TRef n args =>
      match args with
      | [] => mem n tvars || mem n names
      | _ => match assoc n lib_types with
             | Some k => Nat.eqb (List.length args) k
             | None => false
             end
      end && forallb (wf_ty tvars names) args
  | TArray e => wf_ty tvars names e
  | TTuple es => forallb (wf_ty tvars names) es
  | TUnion l r | TInter l r => wf_ty tvars names l && wf_ty tvars names r
  | TFun ps r =>
      forallb (fun s => match s with Slot _ _ u => wf_ty tvars names u end) ps
      && params_ordered false ps && nodupb (map sname ps)
      && wf_ty tvars names r
  | TObj fs =>
      forallb (fun s => match s with Slot _ _ u => wf_ty tvars names u end) fs
      && forallb not_rest fs && nodupb (map sname fs)
  | _ => true
  end.

Definition tpname (p : tparam) : string := let 'TParam n _ := p in n.
Definition tpdefault (p : tparam) : option ty := let 'TParam _ d := p in d.

Definition wf_method (names : list string) (m : method) : bool :=
  let tvars := map tpname (mtparams m) in
  nodupb tvars
  && forallb (fun p => match tpdefault p with
                       | Some d => wf_ty tvars names d
                       | None => true
                       end) (mtparams m)
  && forallb (fun s => wf_ty tvars names (stype s)) (mparams m)
  && params_ordered false (mparams m)
  && nodupb (map sname (mparams m))
  && wf_ty tvars names (mret m)
  && match mbody m with None => true | Some _ => false end.

Definition wf_member (names : list string) (e : member) : bool :=
  match e with
  | Property s => wf_ty [] names (stype s) && not_rest s
  | Method m => wf_method names m
  | DocComment _ | LineComment _ => true
  end.

(** [provides ds c i]: the class [c] has every member of the interface
    named [i], at the identical type; only an optional property may be
    left out. *)
Definition provides (ds : list decl) (c : decl) (i : string) : bool :=
  match lookup_decl i ds with
  | None => false
  | Some d =>
      forallb (fun s => match find_slot (sname s) (properties c) with
                        | Some s' => slot_eqb s s'
                        | None => arity_eqb (sarity s) Optional
                        end) (properties d)
      && forallb (fun m => existsb (method_eqb m) (methods c)) (methods d)
  end.

Definition is_exported (d : decl) : bool :=
  match dvis d with Exported => true | Ambient => false end.

Definition is_class (d : decl) : bool :=
  match dkind d with KClass => true | KInterface => false end.

(** The module specifier ["./stem"] names the file [stem.d.ts] next to
    the importing file. *)
Definition resolve (p : list file) (f : file) (from : string) : option file :=
  find (fun g => String.eqb (fdir g) (fdir f)
                 && String.eqb ("./" ++ fstem g) from) p.

(** The declarations a file can name: its own and the imported ones. *)
Definition visible (p : list file) (f : file) : list decl :=
  decls f ++
  flat_map (fun i => match i with
                     | Import ns from =>
                         match resolve p f from with
                         | Some g => filter (fun d => is_exported d
                                                      && mem (dname d) ns)
                                            (decls g)
                         | None => []
                         end
                     | _ => []
                     end) (fitems f).

Definition wf_decl (ds : list decl) (d : decl) : bool :=
  let names := map dname ds in
  forallb (wf_member names) (dbody d)
  && nodupb (map sname (properties d))
  && forallb (fun s => negb (mem (sname s) (map mname (methods d))))
             (properties d)
  && forallb (fun n => match lookup_decl n ds with
                       | Some b => if is_class d then is_class b else true
                       | None => false
                       end) (dextends d)
  && (if is_class d then Nat.leb (List.length (dextends d)) 1
      else match dimplements d with [] => true | _ => false end)
  && forallb (provides ds d) (dimplements d).

Definition wf_item (p : list file) (f : file) (i : item) : bool :=
  match i with
  | Import ns from =>
      match resolve p f from with
      | Some g => forallb (fun n => mem n (map dname (filter is_exported
                                                              (decls g)))) ns
      | None => false
      end
  | Decl d => wf_decl (visible p f) d
  | Statement _ => false
  end.

Definition typechecks (p : list file) (f : file) : bool :=
  forallb (wf_item p f) (fitems f) && nodupb (map dname (visible p f)).

(** ** Signatures without implementation *)

Definition signature_only (e : member) : bool :=
  match e with
  | Method m => match mbody m with None => true | Some _ => false end
  | Property _ | DocComment _ | LineComment _ => true
  end.

Definition declaration_file (f : file) : bool :=
  forallb (fun i => match i with
                    | Import _ _ => true
                    | Decl d => forallb signature_only (dbody d)
                    | Statement _ => false
                    end) (fitems f).

(** ** Return types that model failure *)

(** Named types that stand for an error. *)
Definition error_types : list string := ["Error"].

(** [models_failure t]: [t] mentions [undefined], [null], [never] or an
    error type, or describes an object with an optional property. *)
Fixpoint models_failure (t : ty) : bool :=
  match t with
  | TUndefined | TNull | TNever => true
  | TRef n args => mem n error_types || existsb models_failure args
  | TArray e => models_failure e
  | TTuple es => existsb models_failure es
  | TUnion l r | TInter l r => models_failure l || models_failure r
  | TFun ps r =>
      existsb (fun s => match s with Slot _ _ u => models_failure u end) ps
      || models_failure r
  | TObj fs =>
      existsb (fun s => match s with
                        | Slot _ a u => arity_eqb a Optional || models_failure u
                        end) fs
  | _ => false
  end.

(** The declarations that carry the operations. *)
Definition services : list decl := [XPlayer; OneSync; Common; Math; Table].

(** ** The reference graph *)

Fixpoint ty_refs (t : ty) : list string :=
  match t with
  | TRef n args => n :: flat_map ty_refs args
  | TArray e => ty_refs e
  | TTuple es => flat_map ty_refs es
  | TUnion l r | TInter l r => ty_refs l ++ ty_refs r
  | TFun ps r =>
      flat_map (fun s => match s with Slot _ _ u => ty_refs u end) ps
      ++ ty_refs r
  | TObj fs => flat_map (fun s => match s with Slot _ _ u => ty_refs u end) fs
  | _ => []
  end.

(** The names a signature refers to, its own type parameters apart. *)
Definition method_refs (m : method) : list string :=
  filter (fun n => negb (mem n (map tpname (mtparams m))))
    (flat_map (fun p => match tpdefault p with
                        | Some d => ty_refs d
                        | None => []
                        end) (mtparams m)
     ++ flat_map (fun s => ty_refs (stype s)) (mparams m)
     ++ ty_refs (mret m)).

Definition decl_refs (d : decl) : list string :=
  dextends d ++ dimplements d
  ++ flat_map (fun s => ty_refs (stype s)) (properties d)
  ++ flat_map method_refs (methods d).

(** [references a b]: the declaration named [a] mentions the declared
    type [b], in a member, an extends clause or an implements clause. *)
Definition references (a b : string) : Prop :=
  exists d, In d all_decls /\ dname d = a /\
            In b (decl_refs d) /\ In b declared.

(** The length of the longest chain of references below [n], explored
    to depth [fuel]. *)
Fixpoint height (fuel : nat) (n : string) : nat :=
  match fuel with
  | 0 => 0
  | S k =>
      match lookup_decl n all_decls with
      | None => 0
      | Some d => S (list_max (map (height k) (decl_refs d)))
      end
  end.

Definition rank (n : string) : nat := height (List.length all_decls) n.

Definition ranked (d : decl) : bool :=
  forallb (fun b => negb (mem b declared) || Nat.ltb (rank b) (rank (dname d)))
          (decl_refs d).

(** ** Passive data shapes *)

Definition is_property (e : member) : bool :=
  match e with Property _ => true | _ => false end.

Definition data_shapes : list decl :=
  [PlayerData; InventoryItem; Job; LoadoutItem; Coords; Account; Weapon;
   WeaponComponent].

(** ** The four groups of declarations *)

Inductive group : Type :=
| PlayerAccessors
| DataShapes
| Utilities
| SpawnHelpers.

Definition is_nil {A : Type} (l : list A) : bool :=
  match l with [] => true | _ => false end.

(** A data shape is an interface without operations; a utility
    interface has operations; the player class implements the player
    record; the spawn helper is a free-standing class whose operations
    are all named [Spawn...]. *)
Definition in_group (g : group) (d : decl) : bool :=
  match g with
  | DataShapes => negb (is_class d) && is_nil (methods d)
  | Utilities => negb (is_class d) && negb (is_nil (methods d))
  | PlayerAccessors => is_class d && mem "PlayerData" (dimplements d)
  | SpawnHelpers =>
      is_class d && is_nil (dimplements d) && is_nil (properties d)
      && forallb (fun m => String.prefix "Spawn" (mname m)) (methods d)
  end.

Definition groups_of (d : decl) : list group :=
  filter (fun g => in_group g d)
         [PlayerAccessors; DataShapes; Utilities; SpawnHelpers].

Definition is_callback (s : slot) : bool :=
  match stype s with TFun _ _ => true | _ => false end.

(** ** Coordinates *)

Definition is_required (s : slot) : bool := arity_eqb (sarity s) Required.

(** The properties a value of type [t] must have, where [t] is built
    from declared shapes, object types and intersections. *)
Fixpoint required_fields (ds : list decl) (t : ty) : option (list slot) :=
  match t with
  | TRef n [] =>
      option_map (fun d => filter is_required (properties d))
                 (lookup_decl n ds)
  | TObj fs => Some (filter is_required fs)
  | TInter l r =>
      match required_fields ds l, required_fields ds r with
      | Some a, Some b => Some (a ++ b)
      | _, _ => None
      end
  | _ => None
  end.

Definition about_coords (name : string) (t : ty) : bool :=
  String.eqb name "coords" || mem "Coords" (ty_refs t).

(** The types at which an operation takes or returns coordinates: the
    parameters named [coords], and any parameter or result whose type
    mentions [Coords]. *)
Definition coord_types (m : method) : list ty :=
  map stype (filter (fun s => about_coords (sname s) (stype s)) (mparams m))
  ++ (if mem "Coords" (ty_refs (mret m)) then [mret m] else []).

Definition coord_operations : list (string * string) :=
  flat_map (fun d => map (fun m => (dname d, mname m))
                         (filter (fun m => negb (is_nil (coord_types m)))
                                 (methods d)))
           all_decls.

(** ** Instantiating generic signatures *)

Fixpoint subst (s : list (string * ty)) (t : ty) : ty :=
  match t with
  | TRef n args =>
      match args, assoc n s with
      | [], Some u => u
      | _, _ => TRef n (map (subst s) args)
      end
  | TArray e => TArray (subst s e)
  | TTuple es => TTuple (map (subst s) es)
  | TUnion l r => TUnion (subst s l) (subst s r)
  | TInter l r => TInter (subst s l) (subst s r)
  | TFun ps r =>
      TFun (map (fun p => match p with
                          | Slot n a u => Slot n a (subst s u)
                          end) ps)
           (subst s r)
  | TObj fs =>
      TObj (map (fun p => match p with
                          | Slot n a u => Slot n a (subst s u)
                          end) fs)
  | _ => t
  end.

Definition subst_slot (s : list (string * ty)) (p : slot) : slot :=
  match p with Slot n a u => Slot n a (subst s u) end.

(** Type parameters bound to the given type arguments, left to right; a
    parameter without an argument takes its default. *)
Fixpoint bind (tps : list tparam) (targs : list ty)
    : option (list (string * ty)) :=
  match tps, targs with
  | [], [] => Some []
  | [], _ :: _ => None
  | TParam n _ :: tps', a :: targs' =>
      option_map (cons (n, a)) (bind tps' targs')
  | TParam n (Some d) :: tps', [] =>
      option_map (cons (n, d)) (bind tps' [])
  | TParam n None :: _, [] => None
  end.

(** The parameter list and result type of the call [m<targs>(...)]. *)
Definition call_type (m : method) (targs : list ty)
    : option (list slot * ty) :=
  match bind (mtparams m) targs with
  | Some s => Some (map (subst_slot s) (mparams m), subst s (mret m))
  | None => None
  end.

Definition generic (m : method) : bool := negb (is_nil (mtparams m)).

(** The correspondence the specification gives between the fields of a
    job grade and the fields of a job. *)
Definition grade_field_in_job : list (string * string) :=
  [("grade", "grade"); ("label", "grade_label"); ("salary", "grade_salary");
   ("skin_male", "skin_male"); ("skin_female", "skin_female")].

(** Every signature a declaration gives for the name [n]. *)
Definition overloads (n : string) (d : decl) : list method :=
  filter (fun m => String.eqb (mname m) n) (methods d).

(** The type of the call [d.n<targs>(...)]. *)
Definition call (d : decl) (n : string) (targs : list ty)
    : option (list slot * ty) :=
  match find_method n d with
  | Some m => call_type m targs
  | None => None
  end.

(** ** Names of operations and documentation tags *)

Definition upper (c : ascii) : ascii :=
  let n := nat_of_ascii c in
  if Nat.leb 97 n && Nat.leb n 122 then ascii_of_nat (n - 32) else c.

Definition capitalize (s : string) : string :=
  match s with
  | EmptyString => EmptyString
  | String c s' => String (upper c) s'
  end.

(** [strip_prefix p s]: what follows [p] in [s], when [s] starts with
    [p]. *)
Fixpoint strip_prefix (p s : string) : option string :=
  match p, s with
  | EmptyString, _ => Some s
  | String a p', String b s' =>
      if Ascii.eqb a b then strip_prefix p' s' else None
  | String _ _, EmptyString => None
  end.

Fixpoint first_word (s : string) : string :=
  match s with
  | EmptyString => EmptyString
  | String c s' =>
      if Ascii.eqb c " "%char then EmptyString else String c (first_word s')
  end.

(** The names given by the [@param] tags of a documentation block, in
    order. *)
Definition param_tags (doc : list string) : list string :=
  flat_map (fun l => match strip_prefix "@param " l with
                     | Some r => [first_word r]
                     | None => []
                     end) doc.

(** The accessor named after the property [p]: [getP]. *)
Definition getter_of (p : string) : string := "get" ++ capitalize p.

(** Operations named [get...], [has...] or [can...]. *)
Definition is_query (n : string) : bool :=
  String.prefix "get" n || String.prefix "has" n || String.prefix "can" n.

(** The names a file imports. *)
Definition imported (f : file) : list string :=
  flat_map (fun i => match i with Import ns _ => ns | _ => [] end)
           (fitems f).

(** [mentions_function t]: a function type occurs in [t]. *)
Fixpoint mentions_function (t : ty) : bool :=
  match t with
  | TFun _ _ => true
  | TRef _ args => existsb mentions_function args
  | TArray e => mentions_function e
  | TTuple es => existsb mentions_function es
  | TUnion l r | TInter l r => mentions_function l || mentions_function r
  | TObj fs =>
      existsb (fun s => match s with Slot _ _ u => mentions_function u end) fs
  | _ => false
  end.

(** Every documentation block of a body is followed by the member it
    documents. *)
Fixpoint docs_attached (body : list member) : bool :=
  match body with
  | [] => true
  | DocComment _ :: body' =>
      match body' with
      | Property _ :: _ | Method _ :: _ => docs_attached body'
      | _ => false
      end
  | _ :: body' => docs_attached body'
  end.

(** * Properties *)

(** [each_of H tac]: [H : In x [a; b; ...]]; run [tac] with [x] replaced
    by each element in turn. *)
Ltac each_of H tac :=
  simpl in H; repeat (destruct H as [<- | H]; [tac |]); try contradiction.

(** Membership in a list given by its elements. *)
Ltac in_list := simpl; repeat (first [left; reflexivity | right]).

(** ** Membership and equality tests *)

Lemma mem_In (n : string) (l : list string) : mem n l = true <-> In n l.
Proof.
  unfold mem. rewrite existsb_exists. split.
  - intros (x & Hx & E). apply String.eqb_eq in E. now subst.
  - intros H. exists n. split; [assumption | apply String.eqb_refl].
Qed.

Lemma in_properties (d : decl) (s : slot) :
  In s (properties d) <-> In (Property s) (dbody d).
Proof.
  unfold properties. rewrite in_flat_map. split.
  - intros (e & He & Hs). destruct e; simpl in Hs; try contradiction.
    destruct Hs as [-> | []]. assumption.
  - intros H. exists (Property s). simpl. auto.
Qed.

Lemma in_methods (d : decl) (m : method) :
  In m (methods d) <-> In (Method m) (dbody d).
Proof.
  unfold methods. rewrite in_flat_map. split.
  - intros (e & He & Hm). destruct e; simpl in Hm; try contradiction.
    destruct Hm as [-> | []]. assumption.
  - intros H. exists (Method m). simpl. auto.
Qed.

Lemma in_decls (f : file) (d : decl) :
  In d (decls f) <-> In (Decl d) (fitems f).
Proof.
  unfold decls. rewrite in_flat_map. split.
  - intros (i & Hi & Hd). destruct i; simpl in Hd; try contradiction.
    destruct Hd as [-> | []]. assumption.
  - intros H. exists (Decl d). simpl. auto.
Qed.

Lemma arity_eqb_eq (a b : arity) : arity_eqb a b = true <-> a = b.
Proof. destruct a, b; simpl; split; congruence. Qed.

Lemma list_eqb_eq {A : Type} (eqb : A -> A -> bool) (xs : list A) :
  list_all A (fun x => forall y, eqb x y = true <-> x = y) xs ->
  forall ys, list_eqb eqb xs ys = true <-> xs = ys.
Proof.
  induction 1 as [|x Hx xs Hxs IH]; intros [|y ys]; simpl;
    try (split; congruence).
  rewrite andb_true_iff, Hx, IH. split.
  - intros [-> ->]. reflexivity.
  - intros E. injection E. auto.
Qed.

Lemma ty_eqb_eq : forall a b : ty, ty_eqb a b = true <-> a = b.
Proof.
  induction a using ty_slot_ind
    with (P0 := fun s => forall t, slot_eqb s t = true <-> s = t);
    try (intros []; simpl; split; congruence).
  - intros []; simpl; try (split; congruence).
    rewrite andb_true_iff, String.eqb_eq, (list_eqb_eq ty_eqb args)
      by assumption.
    split; [intros [-> ->]; reflexivity | intros E; injection E; auto].
  - intros []; simpl; try (split; congruence).
    rewrite IHa. split; congruence.
  - intros []; simpl; try (split; congruence).
    rewrite (list_eqb_eq ty_eqb elems) by assumption. split; congruence.
  - intros []; simpl; try (split; congruence).
    rewrite andb_true_iff, IHa1, IHa2.
    split; [intros [-> ->]; reflexivity | intros E; injection E; auto].
  - intros []; simpl; try (split; congruence).
    rewrite andb_true_iff, IHa1, IHa2.
    split; [intros [-> ->]; reflexivity | intros E; injection E; auto].
  - intros []; simpl; try (split; congruence).
    rewrite andb_true_iff, IHa, (list_eqb_eq slot_eqb params) by assumption.
    split; [intros [-> ->]; reflexivity | intros E; injection E; auto].
  - intros []; simpl; try (split; congruence).
    rewrite (list_eqb_eq slot_eqb fields) by assumption. split; congruence.
  - intros [m b y]; simpl.
    rewrite !andb_true_iff, String.eqb_eq, arity_eqb_eq, IHa.
    split; [intros [[-> ->] ->]; reflexivity | intros E; injection E; auto].
Qed.

Lemma slot_eqb_eq (s t : slot) : slot_eqb s t = true <-> s = t.
Proof.
  destruct s as [n a x], t as [m b y]. simpl.
  rewrite !andb_true_iff, String.eqb_eq, arity_eqb_eq, ty_eqb_eq.
  split; [intros [[-> ->] ->]; reflexivity | intros E; injection E; auto].
Qed.

Lemma find_slot_In (n : string) (l : list slot) (s : slot) :
  find_slot n l = Some s -> In s l /\ sname s = n.
Proof.
  unfold find_slot. intros H. apply find_some in H.
  destruct H as [H E]. apply String.eqb_eq in E. auto.
Qed.

(** ** Names resolve, substitution is an instantiation *)

Lemma list_all_In {A : Type} (P : A -> Prop) (l : list A) :
  list_all A P l -> forall x, In x l -> P x.
Proof.
  induction 1 as [|a Ha l Hl IH]; intros x Hx; simpl in Hx.
  - contradiction.
  - destruct Hx as [<- | Hx]; auto.
Qed.

Lemma assoc_In {A : Type} (n : string) (l : list (string * A)) (v : A) :
  assoc n l = Some v -> In n (map fst l).
Proof.
  induction l as [|[k w] l IH]; simpl; [discriminate |].
  destruct (String.eqb k n) eqn:E.
  - apply String.eqb_eq in E. auto.
  - auto.
Qed.

(** The induction hypothesis on a list of components, at one of them. *)
Ltac component_ih x Hx :=
  match goal with
  | IH : list_all _ _ _ |- _ =>
      let H := fresh "IHx" in
      pose proof (list_all_In _ _ IH x Hx) as H; cbn beta in H
  end.

(** A type expression that passes [wf_ty] names only type parameters,
    declarations in scope and library types. *)
Lemma wf_ty_refs (tvars names : list string) :
  forall t, wf_ty tvars names t = true ->
  forall n, In n (ty_refs t) ->
    In n tvars \/ In n names \/ In n (map fst lib_types).
Proof.
  induction t using ty_slot_ind
    with (P0 := fun s => wf_ty tvars names (stype s) = true ->
                         forall n, In n (ty_refs (stype s)) ->
                           In n tvars \/ In n names \/
                           In n (map fst lib_types));
    cbn [wf_ty ty_refs stype]; intros W n Hn; try contradiction.
  - apply andb_true_iff in W. destruct W as [W1 W2].
    destruct Hn as [<- | Hn].
    + destruct args as [|a args].
      * apply orb_true_iff in W1. rewrite !mem_In in W1. tauto.
      * right. right.
        destruct (assoc name lib_types) eqn:E; [| discriminate].
        apply assoc_In in E. exact E.
    + apply in_flat_map in Hn. destruct Hn as (a & Ha & Hn).
      rewrite forallb_forall in W2. component_ih a Ha. auto.
  - auto.
  - apply in_flat_map in Hn. destruct Hn as (a & Ha & Hn).
    rewrite forallb_forall in W. component_ih a Ha. auto.
  - apply andb_true_iff in W. destruct W. apply in_app_or in Hn.
    destruct Hn; auto.
  - apply andb_true_iff in W. destruct W. apply in_app_or in Hn.
    destruct Hn; auto.
  - rewrite !andb_true_iff in W. destruct W as [[[W1 _] _] W2].
    apply in_app_or in Hn. destruct Hn as [Hn | Hn]; [| auto].
    apply in_flat_map in Hn. destruct Hn as (s & Hs & Hn).
    rewrite forallb_forall in W1. specialize (W1 s Hs).
    component_ih s Hs. destruct s as [k a u]. auto.
  - rewrite !andb_true_iff in W. destruct W as [[W1 _] _].
    apply in_flat_map in Hn. destruct Hn as (s & Hs & Hn).
    rewrite forallb_forall in W1. specialize (W1 s Hs).
    component_ih s Hs. destruct s as [k a u]. auto.
  - auto.
Qed.

(** Instantiating at the type parameters themselves changes nothing. *)
Lemma subst_own_names (ns : list string) :
  forall t, subst (map (fun n => (n, Named n)) ns) t = t.
Proof.
  induction t using ty_slot_ind
    with (P0 := fun s => subst_slot (map (fun n => (n, Named n)) ns) s = s);
    cbn [subst subst_slot]; try reflexivity; try congruence.
  - assert (E : map (subst (map (fun n => (n, Named n)) ns)) args = args).
    { rewrite <- (map_id args) at 2. apply map_ext_in.
      intros a Ha. component_ih a Ha. assumption. }
    rewrite E. destruct args; [| reflexivity].
    destruct (assoc name (map (fun n => (n, Named n)) ns)) as [u|] eqn:A;
      [| reflexivity].
    clear -A. induction ns as [|k ns IH]; simpl in A; [discriminate |].
    destruct (String.eqb k name) eqn:K; auto.
    apply String.eqb_eq in K. subst. now injection A as <-.
  - f_equal. rewrite <- (map_id elems) at 2. apply map_ext_in.
    intros a Ha. component_ih a Ha. assumption.
  - f_equal; [| assumption]. rewrite <- (map_id params) at 2.
    apply map_ext_in. intros a Ha. component_ih a Ha. assumption.
  - f_equal. rewrite <- (map_id fields) at 2. apply map_ext_in.
    intros a Ha. component_ih a Ha. assumption.
Qed.

Lemma lookup_decl_In (n : string) (ds : list decl) (d : decl) :
  lookup_decl n ds = Some d -> In d ds /\ dname d = n.
Proof.
  unfold lookup_decl. intros H. apply find_some in H.
  destruct H as [H E]. apply String.eqb_eq in E. auto.
Qed.

Lemma wf_method_refs (names : list string) (m : method) :
  wf_method names m = true ->
  forall n, In n (method_refs m) ->
    In n names \/ In n (map fst lib_types).
Proof.
  unfold wf_method, method_refs. cbn zeta. rewrite !andb_true_iff.
  intros [[[[[[_ D] P] _] _] R] _] n Hn.
  apply filter_In in Hn. destruct Hn as [Hn T].
  apply negb_true_iff in T.
  assert (K : In n (map tpname (mtparams m)) \/ In n names \/
              In n (map fst lib_types)).
  { rewrite !in_app_iff in Hn. destruct Hn as [Hn | [Hn | Hn]].
    - apply in_flat_map in Hn. destruct Hn as (q & Hq & Hn).
      rewrite forallb_forall in D. specialize (D q Hq).
      destruct (tpdefault q); [| contradiction].
      exact (wf_ty_refs _ _ _ D n Hn).
    - apply in_flat_map in Hn. destruct Hn as (q & Hq & Hn).
      rewrite forallb_forall in P. specialize (P q Hq).
      exact (wf_ty_refs _ _ _ P n Hn).
    - exact (wf_ty_refs _ _ _ R n Hn). }
  destruct K as [K | K]; [| exact K].
  apply mem_In in K. congruence.
Qed.

(** Every name a checked declaration mentions is a declaration in scope
    or a library type. *)
Lemma wf_decl_refs (ds : list decl) (d : decl) :
  wf_decl ds d = true ->
  forall n, In n (decl_refs d) ->
    In n (map dname ds) \/ In n (map fst lib_types).
Proof.
  unfold wf_decl, decl_refs. cbn zeta. rewrite !andb_true_iff.
  intros [[[[[M _] _] E] _] I] n Hn.
  rewrite forallb_forall in M, E, I.
  rewrite !in_app_iff in Hn. destruct Hn as [Hn | [Hn | [Hn | Hn]]].
  - specialize (E n Hn).
    destruct (lookup_decl n ds) as [b|] eqn:L; [| discriminate].
    apply lookup_decl_In in L. destruct L as [L <-].
    left. apply in_map. exact L.
  - specialize (I n Hn). unfold provides in I.
    destruct (lookup_decl n ds) as [b|] eqn:L; [| discriminate].
    apply lookup_decl_In in L. destruct L as [L <-].
    left. apply in_map. exact L.
  - apply in_flat_map in Hn. destruct Hn as (q & Hq & Hn).
    apply in_properties in Hq. specialize (M _ Hq). simpl in M.
    apply andb_true_iff in M. destruct M as [M _].
    destruct (wf_ty_refs [] _ _ M n Hn) as [[] | K]. exact K.
  - apply in_flat_map in Hn. destruct Hn as (q & Hq & Hn).
    apply in_methods in Hq. specialize (M _ Hq). simpl in M.
    eapply wf_method_refs; eauto.
Qed.

Lemma typechecks_refs (p : list file) (f : file) (d : decl) (n : string) :
  typechecks p f = true ->
  In d (decls f) ->
  In n (decl_refs d) ->
  In n (map dname (visible p f)) \/ In n (map fst lib_types).
Proof.
  unfold typechecks. intros H Hd Hn.
  apply andb_true_iff in H. destruct H as [H _].
  rewrite forallb_forall in H. apply in_decls in Hd.
  specialize (H _ Hd). simpl in H.
  eapply wf_decl_refs; eauto.
Qed.

Lemma bind_own_names (tps : list tparam) :
  bind tps (map (fun q => Named (tpname q)) tps) =
  Some (map (fun n => (n, Named n)) (map tpname tps)).
Proof.
  induction tps as [|[n d] tps IH]; simpl; [reflexivity |].
  rewrite IH. destruct d; reflexivity.
Qed.

(** A generic signature called at its own type parameters has the
    declared parameter list and result. *)
Lemma call_type_own_names (m : method) :
  call_type m (map (fun q => Named (tpname q)) (mtparams m)) =
  Some (mparams m, mret m).
Proof.
  unfold call_type. rewrite bind_own_names, subst_own_names.
  f_equal. f_equal. rewrite <- (map_id (mparams m)) at 2.
  apply map_ext. intros [n a u]. simpl. now rewrite subst_own_names.
Qed.

(** ** What a checked class provides *)

(** A class that passes [provides] declares every required property of
    the interface, as the very same slot: name, arity and type. *)
Lemma provides_sound (ds : list decl) (c i : decl) (n : string) (s : slot) :
  provides ds c n = true ->
  lookup_decl n ds = Some i ->
  In s (properties i) ->
  sarity s <> Optional ->
  In s (properties c).
Proof.
  unfold provides. intros H L Hs Hreq. rewrite L in H.
  apply andb_true_iff in H. destruct H as [H _].
  rewrite forallb_forall in H. specialize (H s Hs).
  destruct (find_slot (sname s) (properties c)) as [s'|] eqn:F.
  - apply slot_eqb_eq in H. subst s'. apply find_slot_In in F. tauto.
  - apply arity_eqb_eq in H. contradiction.
Qed.

(** In a file that type-checks, each class declaration provides the
    interfaces named in its implements clause. *)
Lemma typechecks_provides (p : list file) (f : file) (c : decl) (n : string) :
  typechecks p f = true ->
  In c (decls f) ->
  In n (dimplements c) ->
  provides (visible p f) c n = true.
Proof.
  unfold typechecks. intros H Hc Hn.
  apply andb_true_iff in H. destruct H as [H _].
  rewrite forallb_forall in H. apply in_decls in Hc.
  specialize (H _ Hc). simpl in H. unfold wf_decl in H.
  rewrite !andb_true_iff in H. destruct H as [_ H].
  rewrite forallb_forall in H. auto.
Qed.

(** ** Files without implementation *)

Lemma declaration_file_spec (f : file) :
  declaration_file f = true ->
  (forall i text, In i (fitems f) -> i <> Statement text) /\
  (forall d m, In d (decls f) -> In m (methods d) -> mbody m = None).
Proof.
  unfold declaration_file. rewrite forallb_forall. intros H. split.
  - intros i text Hi ->. specialize (H _ Hi). discriminate.
  - intros d m Hd Hm. apply in_decls in Hd. apply in_methods in Hm.
    specialize (H _ Hd). simpl in H. rewrite forallb_forall in H.
    specialize (H _ Hm). simpl in H. destruct (mbody m); congruence.
Qed.

(** ** The reference graph is ranked *)

Lemma references_rank (a b : string) : references a b -> rank b < rank a.
Proof.
  intros (d & Hd & <- & Hb & Hdecl).
  assert (R : forallb ranked all_decls = true) by (vm_compute; reflexivity).
  rewrite forallb_forall in R. specialize (R d Hd).
  unfold ranked in R. rewrite forallb_forall in R. specialize (R b Hb).
  apply mem_In in Hdecl. rewrite Hdecl in R. simpl in R.
  apply Nat.ltb_lt in R. exact R.
Qed.

Lemma path_rank (a b : string) :
  clos_trans string references a b -> rank b < rank a.
Proof.
  induction 1 as [a b H | a b c _ IH1 _ IH2].
  - apply references_rank. exact H.
  - lia.
Qed.

(** ** The claims *)

(** C1: every field of the JobGrade shape (grade, label, salary,
    skin_male, skin_female) corresponds, with the same type, to a field
    of the Job shape that the player job accessor getJob returns, where
    Job carries them as grade, grade_label, grade_salary, skin_male and
    skin_female. *)
Theorem JobGrade_fields_match_Job :
  option_map mret (find_method "getJob" XPlayer) = Some (Named "Job") /\
  lookup_decl "Job" (visible program server_d_ts) = Some Job /\
  map sname (properties JobGrade) = map fst grade_field_in_job /\
  forall g, In g (properties JobGrade) ->
    exists n j, assoc (sname g) grade_field_in_job = Some n /\
                find_slot n (properties Job) = Some j /\
                stype j = stype g /\ sarity j = sarity g.
Proof.
  repeat split; try reflexivity.
  intros g Hg.
  each_of Hg ltac:(do 2 eexists; repeat split; reflexivity).
Qed.

Lemma JobGrade_fields_match_Job_witness :
  In (req "label" TString) (properties JobGrade) /\
  exists n j, assoc "label" grade_field_in_job = Some n /\
              find_slot n (properties Job) = Some j /\
              stype j = TString /\ sarity j = Required.
Proof.
  split; [in_list |].
  destruct JobGrade_fields_match_Job as (_ & _ & _ & H).
  apply (H (req "label" TString)). in_list.
Defined.

(** C2: the declaration files type-check against themselves; in
    particular, for every field declared in the PlayerData interface
    (accounts, coords, group, identifier, inventory, job, loadout, name,
    playerId, source, variables, weight, maxWeight, metadata), the
    XPlayer class that implements PlayerData declares a field of the same
    name with the identical type. *)
Theorem XPlayer_provides_PlayerData :
  (forall f, In f program -> typechecks program f = true) /\
  (forall f d n, In f program -> In d (decls f) -> In n (decl_refs d) ->
     In n (map dname (visible program f)) \/ In n ["Record"; "Partial"]) /\
  dimplements XPlayer = ["PlayerData"] /\
  lookup_decl "PlayerData" (visible program server_d_ts) = Some PlayerData /\
  map sname (properties PlayerData) =
    ["accounts"; "coords"; "group"; "identifier"; "inventory"; "job";
     "loadout"; "name"; "playerId"; "source"; "variables"; "weight";
     "maxWeight"; "metadata"] /\
  forall s, In s (properties PlayerData) ->
    exists x, In x (properties XPlayer) /\
              sname x = sname s /\ stype x = stype s.
Proof.
  assert (T : forall f, In f program -> typechecks program f = true).
  { intros f Hf. each_of Hf ltac:(vm_compute; reflexivity). }
  split; [exact T |]. split.
  { intros f d n Hf Hd Hn.
    exact (typechecks_refs program f d n (T f Hf) Hd Hn). }
  repeat split; try reflexivity.
  intros s Hs. exists s. repeat split.
  apply (provides_sound (visible program server_d_ts) XPlayer PlayerData
           "PlayerData").
  - apply (typechecks_provides program server_d_ts).
    + apply T. in_list.
    + in_list.
    + in_list.
  - reflexivity.
  - exact Hs.
  - each_of Hs ltac:(discriminate).
Qed.

Lemma XPlayer_provides_PlayerData_witness :
  In (req "coords" (Named "Coords")) (properties PlayerData) /\
  exists x, In x (properties XPlayer) /\
            sname x = "coords" /\ stype x = Named "Coords".
Proof.
  split; [in_list |].
  destruct XPlayer_provides_PlayerData as (_ & _ & _ & _ & _ & H).
  apply (H (req "coords" (Named "Coords"))). in_list.
Defined.

(** C3: every source file consists only of type, interface and class
    member signatures and documentation comments (with them, one import
    of type names and a few line comments): no declared operation has a
    body, and there is no executable statement anywhere in the two source
    files. *)
Theorem sources_declare_only :
  List.length (flat_map methods all_decls) = 75 /\
  forall f, In f program ->
    (forall i text, In i (fitems f) -> i <> Statement text) /\
    (forall d m, In d (decls f) -> In m (methods d) -> mbody m = None).
Proof.
  split; [reflexivity |].
  intros f Hf. apply declaration_file_spec.
  each_of Hf ltac:(vm_compute; reflexivity).
Qed.

Lemma sources_declare_only_witness :
  In server_d_ts program /\ In OneSync (decls server_d_ts) /\
  In (signature "SpawnPedInVehicle" []
        [req "model" (TUnion TString TNumber); req "vehicle" TNumber;
         req "seat" TNumber; opt "cb" (TFun [req "netId" TNumber] TVoid)]
        TVoid) (dbody OneSync) /\
  mbody {| mname := "SpawnPedInVehicle"; mtparams := [];
           mparams := [req "model" (TUnion TString TNumber);
                       req "vehicle" TNumber; req "seat" TNumber;
                       opt "cb" (TFun [req "netId" TNumber] TVoid)];
           mret := TVoid; mbody := None |} = None.
Proof.
  assert (F : In server_d_ts program) by in_list.
  split; [exact F |]. split; [in_list |]. split; [in_list |].
  destruct sources_declare_only as [_ H].
  destruct (H server_d_ts F) as [_ B].
  apply (B OneSync); in_list.
Defined.

(** C4, as stated: for every method declared on XPlayer, OneSync, Common,
    Math and Table the declared return type is not an undefined-bearing
    or error-bearing type.  Table.Find, declared to return
    [any | undefined], refutes it. *)
Lemma Table_Find_models_failure :
  ~ (forall d m, In d services -> In m (methods d) ->
       models_failure (mret m) = false).
Proof.
  intros H.
  specialize (H Table
                {| mname := "Find"; mtparams := [];
                   mparams := [req "t" TAny;
                               req "cb" (TFun [req "element" TAny] TBoolean)];
                   mret := TUnion TAny TUndefined; mbody := None |}).
  simpl in H. discriminate H; in_list.
Qed.

(** C4, amended: of all the methods declared on XPlayer, OneSync, Common,
    Math and Table, only Table.Find has a return type that models
    failure, and it is declared to return [any | undefined]; every other
    declared return type mentions no undefined, null, never or error
    type. *)
Theorem only_Table_Find_models_failure :
  option_map mret (find_method "Find" Table) = Some (TUnion TAny TUndefined) /\
  forall d m, In d services -> In m (methods d) ->
    models_failure (mret m) = false \/
    (dname d = "Table" /\ mname m = "Find" /\
     mret m = TUnion TAny TUndefined).
Proof.
  split; [reflexivity |].
  intros d m Hd Hm.
  assert (C : forallb (fun d =>
                forallb (fun m =>
                  negb (models_failure (mret m))
                  || (String.eqb (dname d) "Table"
                      && String.eqb (mname m) "Find"
                      && ty_eqb (mret m) (TUnion TAny TUndefined)))
                  (methods d)) services = true)
    by (vm_compute; reflexivity).
  rewrite forallb_forall in C. specialize (C d Hd).
  rewrite forallb_forall in C. specialize (C m Hm).
  apply orb_true_iff in C. destruct C as [C | C].
  - left. apply negb_true_iff. exact C.
  - right. rewrite !andb_true_iff, !String.eqb_eq, ty_eqb_eq in C. tauto.
Qed.

Lemma only_Table_Find_models_failure_witness :
  In Table services /\
  In {| mname := "Find"; mtparams := [];
        mparams := [req "t" TAny;
                    req "cb" (TFun [req "element" TAny] TBoolean)];
        mret := TUnion TAny TUndefined; mbody := None |} (methods Table) /\
  (models_failure (TUnion TAny TUndefined) = false \/
   ("Table" = "Table" /\ "Find" = "Find" /\
    TUnion TAny TUndefined = TUnion TAny TUndefined)).
Proof.
  split; [in_list |]. split; [in_list |].
  destruct only_Table_Find_models_failure as [_ H].
  apply (H Table
           {| mname := "Find"; mtparams := [];
              mparams := [req "t" TAny;
                          req "cb" (TFun [req "element" TAny] TBoolean)];
              mret := TUnion TAny TUndefined; mbody := None |}); in_list.
Defined.

(** C5: the reference graph among all declared interfaces and classes
    (PlayerData, InventoryItem, Job, LoadoutItem, Coords, Account, Weapon,
    WeaponComponent, Math, Table, Common, JobGrade, ConfigJob, XPlayer,
    OneSync) is acyclic, and no declared type extends another; XPlayer's
    relation to PlayerData is an implements clause. *)
Theorem reference_graph_acyclic :
  declared =
    ["PlayerData"; "InventoryItem"; "Job"; "LoadoutItem"; "Coords";
     "Account"; "Weapon"; "WeaponComponent"; "Math"; "Table"; "Common";
     "JobGrade"; "ConfigJob"; "XPlayer"; "OneSync"] /\
  dimplements XPlayer = ["PlayerData"] /\
  references "XPlayer" "PlayerData" /\
  (forall d, In d all_decls -> dextends d = []) /\
  (forall a, ~ clos_trans string references a a).
Proof.
  split; [reflexivity |]. split; [reflexivity |]. split.
  { exists XPlayer. repeat split; in_list. }
  split.
  - intros d Hd. each_of Hd ltac:(reflexivity).
  - intros a H. apply path_rank in H. lia.
Qed.

Lemma reference_graph_acyclic_witness :
  In XPlayer all_decls /\ dextends XPlayer = [] /\
  ~ clos_trans string references "Weapon" "Weapon".
Proof.
  destruct reference_graph_acyclic as (_ & _ & _ & E & A).
  split; [in_list |]. split.
  - apply (E XPlayer). in_list.
  - apply (A "Weapon").
Defined.

(** C6: each of the eight declared data shapes (PlayerData,
    InventoryItem, Job, LoadoutItem, Coords, Account, Weapon,
    WeaponComponent) is a passive data description: it consists solely of
    data fields and declares no method signatures. *)
Theorem data_shapes_are_passive :
  map dname data_shapes =
    ["PlayerData"; "InventoryItem"; "Job"; "LoadoutItem"; "Coords";
     "Account"; "Weapon"; "WeaponComponent"] /\
  forall d, In d data_shapes ->
    methods d = [] /\
    forall e, In e (dbody d) -> exists s, e = Property s.
Proof.
  split; [reflexivity |].
  intros d Hd.
  assert (P : forallb is_property (dbody d) = true).
  { each_of Hd ltac:(reflexivity). }
  rewrite forallb_forall in P. split.
  - destruct (methods d) as [|m ms] eqn:E; [reflexivity |].
    assert (Hm : In m (methods d)) by (rewrite E; simpl; auto).
    apply in_methods in Hm. apply P in Hm. discriminate.
  - intros e He. specialize (P e He). destruct e; try discriminate.
    eexists. reflexivity.
Qed.

Lemma data_shapes_are_passive_witness :
  In Weapon data_shapes /\ methods Weapon = [] /\
  exists s, Property (req "components" (TArray (Named "WeaponComponent")))
            = Property s.
Proof.
  assert (H : In Weapon data_shapes) by in_list.
  destruct data_shapes_are_passive as [_ P].
  destruct (P Weapon H) as [M B].
  split; [exact H |]. split; [exact M |].
  apply B. in_list.
Defined.

(** C7: every top-level declaration falls into exactly one of four
    groups: player accessor methods (XPlayer), data shape definitions,
    math and table utility signatures (Math, Table, Common), and spawn
    helper signatures (OneSync); and OneSync declares exactly four
    operations, SpawnObject, SpawnPed, SpawnPedInVehicle and SpawnVehicle,
    each returning void and delivering a network id only through an
    optional callback. *)
Theorem four_groups_and_spawn_helpers :
  map (fun d => (dname d, groups_of d)) all_decls =
    [("PlayerData", [DataShapes]); ("InventoryItem", [DataShapes]);
     ("Job", [DataShapes]); ("LoadoutItem", [DataShapes]);
     ("Coords", [DataShapes]); ("Account", [DataShapes]);
     ("Weapon", [DataShapes]); ("WeaponComponent", [DataShapes]);
     ("Math", [Utilities]); ("Table", [Utilities]); ("Common", [Utilities]);
     ("JobGrade", [DataShapes]); ("ConfigJob", [DataShapes]);
     ("XPlayer", [PlayerAccessors]); ("OneSync", [SpawnHelpers])] /\
  map mname (methods OneSync) =
    ["SpawnObject"; "SpawnPed"; "SpawnPedInVehicle"; "SpawnVehicle"] /\
  (forall d, In d all_decls -> exists g, groups_of d = [g]) /\
  (forall m, In m (methods OneSync) ->
     mret m = TVoid /\
     filter is_callback (mparams m) =
       [opt "cb" (TFun [req "netId" TNumber] TVoid)]).
Proof.
  split; [reflexivity |]. split; [reflexivity |]. split.
  - intros d Hd. each_of Hd ltac:(eexists; reflexivity).
  - intros m Hm. each_of Hm ltac:(split; reflexivity).
Qed.

Lemma four_groups_and_spawn_helpers_witness :
  In OneSync all_decls /\
  (exists g, groups_of OneSync = [g]) /\
  In {| mname := "SpawnPedInVehicle"; mtparams := [];
        mparams := [req "model" (TUnion TString TNumber);
                    req "vehicle" TNumber; req "seat" TNumber;
                    opt "cb" (TFun [req "netId" TNumber] TVoid)];
        mret := TVoid; mbody := None |} (methods OneSync) /\
  filter is_callback
    [req "model" (TUnion TString TNumber); req "vehicle" TNumber;
     req "seat" TNumber; opt "cb" (TFun [req "netId" TNumber] TVoid)] =
    [opt "cb" (TFun [req "netId" TNumber] TVoid)].
Proof.
  assert (H : In OneSync all_decls) by in_list.
  destruct four_groups_and_spawn_helpers as (_ & _ & G & S).
  split; [exact H |]. split; [exact (G OneSync H) |].
  split; [in_list |].
  apply (S {| mname := "SpawnPedInVehicle"; mtparams := [];
              mparams := [req "model" (TUnion TString TNumber);
                          req "vehicle" TNumber; req "seat" TNumber;
                          opt "cb" (TFun [req "netId" TNumber] TVoid)];
              mret := TVoid; mbody := None |}).
  in_list.
Defined.

(** C8: the Coords shape names its third coordinate field with a capital
    Z while the first two are lowercase x and y, and every operation that
    takes or returns coordinates (XPlayer.getCoords, XPlayer.setCoords,
    the OneSync spawn helpers) uses exactly this shape, even though the
    documentation of getCoords describes the result as a table with x, y
    and z pairs. *)
Theorem coordinates_use_capital_Z :
  properties Coords = [req "x" TNumber; req "y" TNumber; req "Z" TNumber] /\
  find_slot "z" (properties Coords) = None /\
  doc_mentions "a table with x, y and z pairs" (doc_of "getCoords" XPlayer)
    = true /\
  coord_operations =
    [("XPlayer", "getCoords"); ("XPlayer", "setCoords");
     ("OneSync", "SpawnObject"); ("OneSync", "SpawnPed");
     ("OneSync", "SpawnVehicle")] /\
  option_map mret (find_method "getCoords" XPlayer) = Some (Named "Coords") /\
  option_map mparams (find_method "setCoords" XPlayer) =
    Some [req "coords" (TInter (Named "Coords")
                               (TObj [opt "heading" TNumber]))] /\
  forall d m t, In d all_decls -> In m (methods d) -> In t (coord_types m) ->
    (t = Named "Coords" \/
     t = TInter (Named "Coords") (TObj [opt "heading" TNumber])) /\
    required_fields all_decls t = Some (properties Coords).
Proof.
  repeat (split; [reflexivity |]).
  intros d m t Hd Hm Ht.
  assert (C : forallb (fun d =>
                forallb (fun m =>
                  forallb (fun t =>
                    ty_eqb t (Named "Coords")
                    || ty_eqb t (TInter (Named "Coords")
                                        (TObj [opt "heading" TNumber])))
                    (coord_types m)) (methods d)) all_decls = true)
    by (vm_compute; reflexivity).
  rewrite forallb_forall in C. specialize (C d Hd).
  rewrite forallb_forall in C. specialize (C m Hm).
  rewrite forallb_forall in C. specialize (C t Ht).
  apply orb_true_iff in C. rewrite !ty_eqb_eq in C.
  destruct C as [-> | ->]; split; auto; reflexivity.
Qed.

Lemma coordinates_use_capital_Z_witness :
  In XPlayer all_decls /\
  In {| mname := "setCoords"; mtparams := [];
        mparams := [req "coords" (TInter (Named "Coords")
                                         (TObj [opt "heading" TNumber]))];
        mret := TVoid; mbody := None |} (methods XPlayer) /\
  required_fields all_decls
    (TInter (Named "Coords") (TObj [opt "heading" TNumber])) =
    Some [req "x" TNumber; req "y" TNumber; req "Z" TNumber].
Proof.
  assert (H : In XPlayer all_decls) by in_list.
  split; [exact H |].
  assert (M : In {| mname := "setCoords"; mtparams := [];
                    mparams := [req "coords"
                                  (TInter (Named "Coords")
                                          (TObj [opt "heading" TNumber]))];
                    mret := TVoid; mbody := None |} (methods XPlayer)).
  { in_list. }
  split; [exact M |].
  destruct coordinates_use_capital_Z as (_ & _ & _ & _ & _ & _ & C).
  apply (C XPlayer _ _ H M). in_list.
Defined.

(** C9: XPlayer.getWeapon is declared to return a non-optional pair
    [[number, LoadoutItem]] (index first) and XPlayer.hasItem a
    non-optional pair [[InventoryItem, number]] (item first), whatever
    the input, with no undefined branch in either return type, even
    though the usage example in getWeapon's own documentation branches on
    the weapon being absent. *)
Theorem getWeapon_hasItem_return_pairs :
  map mret (overloads "getWeapon" XPlayer) =
    [TTuple [TNumber; Named "LoadoutItem"]] /\
  map mret (overloads "hasItem" XPlayer) =
    [TTuple [Named "InventoryItem"; TNumber]] /\
  models_failure (TTuple [TNumber; Named "LoadoutItem"]) = false /\
  models_failure (TTuple [Named "InventoryItem"; TNumber]) = false /\
  doc_mentions "if (weapon) {" (doc_of "getWeapon" XPlayer) = true /\
  doc_mentions "} else {" (doc_of "getWeapon" XPlayer) = true /\
  doc_mentions "console.log('weapon not found!')"
    (doc_of "getWeapon" XPlayer) = true.
Proof. repeat split; vm_compute; reflexivity. Qed.

(** C10: the Table utilities are shape-preserving where declared generic:
    for every type T, Table.Clone is declared to return exactly T on an
    argument of type T, Table.Sort returns T on T, Table.Filter returns
    [Partial<T>] on T, and for every T1 and T2, Table.Concat returns the
    intersection [T1 & T2]. *)
Theorem Table_generics_preserve_shape :
  map mname (filter generic (methods Table)) =
    ["Filter"; "Clone"; "Concat"; "Sort"] /\
  (forall T, call Table "Clone" [T] = Some ([req "t" T], T)) /\
  (forall T, call Table "Sort" [T] =
     Some ([req "t" T;
            opt "order" (TFun [req "t" T; req "a" TAny; req "b" TAny]
                              TBoolean)], T)) /\
  (forall T, call Table "Filter" [T] =
     Some ([req "t" T; req "cb" (TFun [req "element" TAny] TBoolean)],
           TRef "Partial" [T])) /\
  (forall T1 T2, call Table "Concat" [T1; T2] =
     Some ([req "t1" T1; req "t2" T2], TInter T1 T2)).
Proof.
  split; [reflexivity |].
  repeat split; intros; unfold call; simpl; reflexivity.
Qed.

(** ** Further properties of the declarations *)

Lemma each_method (P : decl -> method -> bool) (ds : list decl) :
  forallb (fun d => forallb (P d) (methods d)) ds = true ->
  forall d m, In d ds -> In m (methods d) -> P d m = true.
Proof.
  intros H d m Hd Hm. rewrite forallb_forall in H.
  specialize (H d Hd). rewrite forallb_forall in H. exact (H m Hm).
Qed.

Lemma each_property (P : decl -> slot -> bool) (ds : list decl) :
  forallb (fun d => forallb (P d) (properties d)) ds = true ->
  forall d s, In d ds -> In s (properties d) -> P d s = true.
Proof.
  intros H d s Hd Hs. rewrite forallb_forall in H.
  specialize (H d Hd). rewrite forallb_forall in H. exact (H s Hs).
Qed.

Lemma nodupb_NoDup (l : list string) : nodupb l = true -> NoDup l.
Proof.
  induction l as [|x l IH]; simpl; intros H; constructor.
  - apply andb_true_iff in H. destruct H as [H _].
    apply negb_true_iff in H. intros I. apply mem_In in I. congruence.
  - apply andb_true_iff in H. tauto.
Qed.

(** After an optional parameter come only optional ones and, last, at
    most one rest parameter. *)
Lemma params_ordered_tail (ps : list slot) :
  params_ordered true ps = true ->
  exists os vs, ps = os ++ vs /\
    Forall (fun s => sarity s = Optional) os /\
    (vs = [] \/ exists v, vs = [v] /\ sarity v = Rest).
Proof.
  induction ps as [|[n a u] ps IH]; simpl; intros H.
  - exists [], []. auto.
  - destruct a.
    + discriminate.
    + destruct (IH H) as (os & vs & -> & Ho & Hv).
      exists (Slot n Optional u :: os), vs. repeat split; auto.
    + destruct ps; [| discriminate].
      exists [], [Slot n Rest u]. repeat split; eauto.
Qed.

(** A well-ordered parameter list is its required parameters, then its
    optional ones, then at most one rest parameter. *)
Lemma params_ordered_split (ps : list slot) :
  params_ordered false ps = true ->
  exists rs os vs, ps = rs ++ os ++ vs /\
    Forall (fun s => sarity s = Required) rs /\
    Forall (fun s => sarity s = Optional) os /\
    (vs = [] \/ exists v, vs = [v] /\ sarity v = Rest).
Proof.
  induction ps as [|[n a u] ps IH]; simpl; intros H.
  - exists [], [], []. auto.
  - destruct a.
    + destruct (IH H) as (rs & os & vs & -> & Hr & Ho & Hv).
      exists (Slot n Required u :: rs), os, vs. repeat split; auto.
    + destruct (params_ordered_tail ps H) as (os & vs & -> & Ho & Hv).
      exists [], (Slot n Optional u :: os), vs. repeat split; auto.
    + destruct ps; [| discriminate].
      exists [], [], [Slot n Rest u]. repeat split; eauto.
Qed.


(** X1: where XPlayer has an accessor named after one of its data
    fields ([getCoords] for [coords], [getJob] for [job], ...), the
    accessor returns the declared type of that field. *)
Theorem getters_return_field_types :
  map sname (filter (fun s => match find_method (getter_of (sname s)) XPlayer
                              with Some _ => true | None => false end)
                    (properties XPlayer)) =
    ["accounts"; "coords"; "group"; "identifier"; "inventory"; "job";
     "loadout"; "name"; "weight"] /\
  forall s m, In s (properties XPlayer) ->
    find_method (getter_of (sname s)) XPlayer = Some m ->
    mret m = stype s.
Proof.
  split; [vm_compute; reflexivity |].
  intros s m Hs F.
  each_of Hs ltac:(vm_compute in F;
                   first [discriminate F | injection F as <-; reflexivity]).
Qed.

Lemma getters_return_field_types_witness :
  In (req "inventory" (TArray (Named "InventoryItem"))) (properties XPlayer) /\
  find_method "getInventory" XPlayer =
    Some {| mname := "getInventory"; mtparams := [];
            mparams := [req "minimal" TBoolean];
            mret := TArray (Named "InventoryItem"); mbody := None |} /\
  TArray (Named "InventoryItem") = TArray (Named "InventoryItem").
Proof.
  split; [in_list |]. split; [reflexivity |].
  destruct getters_return_field_types as [_ H].
  apply (H (req "inventory" (TArray (Named "InventoryItem")))
           {| mname := "getInventory"; mtparams := [];
              mparams := [req "minimal" TBoolean];
              mret := TArray (Named "InventoryItem"); mbody := None |}).
  - in_list.
  - reflexivity.
Defined.



(** X3: an operation of XPlayer returns void exactly when it is not a
    query: the operations named [get...], [has...] and [can...] all
    return a value, and every other operation returns void. *)
Theorem XPlayer_commands_return_void :
  forall m, In m (methods XPlayer) ->
    (mret m = TVoid <-> is_query (mname m) = false).
Proof.
  intros m Hm.
  each_of Hm ltac:(vm_compute; split; intros Q;
                   first [reflexivity | discriminate Q]).
Qed.

Lemma XPlayer_commands_return_void_witness :
  In {| mname := "hasWeapon"; mtparams := [];
        mparams := [req "weaponName" TString];
        mret := TBoolean; mbody := None |} (methods XPlayer) /\
  (TBoolean = TVoid <-> is_query "hasWeapon" = false).
Proof.
  split; [in_list |].
  apply (XPlayer_commands_return_void
           {| mname := "hasWeapon"; mtparams := [];
              mparams := [req "weaponName" TString];
              mret := TBoolean; mbody := None |}).
  in_list.
Defined.

(** X4: in XPlayer, OneSync, Math and Common the [@param] tags of each
    operation's documentation name exactly the parameters of its
    signature, in order; the documentation in Table has no such tag. *)
Theorem param_tags_name_the_parameters :
  flat_map (fun m => param_tags (doc_of (mname m) Table)) (methods Table)
    = [] /\
  forall d m, In d [XPlayer; OneSync; Math; Common] -> In m (methods d) ->
    param_tags (doc_of (mname m) d) = map sname (mparams m).
Proof.
  split; [vm_compute; reflexivity |].
  intros d m Hd Hm.
  assert (C : forallb (fun d =>
                forallb (fun m =>
                  list_eqb String.eqb (param_tags (doc_of (mname m) d))
                                      (map sname (mparams m)))
                  (methods d)) [XPlayer; OneSync; Math; Common] = true)
    by (vm_compute; reflexivity).
  pose proof (each_method _ _ C d m Hd Hm) as E. cbv beta in E.
  revert E. generalize (param_tags (doc_of (mname m) d)).
  generalize (map sname (mparams m)).
  intros ys xs. revert ys.
  induction xs as [|x xs IH]; intros [|y ys]; simpl; try discriminate.
  - reflexivity.
  - intros E. apply andb_true_iff in E. destruct E as [E1 E2].
    apply String.eqb_eq in E1. subst y. f_equal. auto.
Qed.

Lemma param_tags_name_the_parameters_witness :
  In OneSync [XPlayer; OneSync; Math; Common] /\
  In {| mname := "SpawnVehicle"; mtparams := [];
        mparams := [req "model" (TUnion TString TNumber);
                    req "coords" (Named "Coords"); req "heading" TNumber;
                    opt "Properties" TAny;
                    opt "cb" (TFun [req "netId" TNumber] TVoid)];
        mret := TVoid; mbody := None |} (methods OneSync) /\
  param_tags (doc_of "SpawnVehicle" OneSync) =
    ["model"; "coords"; "heading"; "Properties"; "cb"].
Proof.
  split; [in_list |]. split; [in_list |].
  destruct param_tags_name_the_parameters as [_ H].
  apply (H OneSync
           {| mname := "SpawnVehicle"; mtparams := [];
              mparams := [req "model" (TUnion TString TNumber);
                          req "coords" (Named "Coords");
                          req "heading" TNumber; opt "Properties" TAny;
                          opt "cb" (TFun [req "netId" TNumber] TVoid)];
              mret := TVoid; mbody := None |}); in_list.
Defined.

(** X5: server.d.ts imports from common.d.ts exactly the names it uses:
    a name is imported if and only if a declaration of server.d.ts
    refers to it and common.d.ts declares it. *)
Theorem imports_are_the_names_used :
  forall n, In n (imported server_d_ts) <->
    In n (flat_map decl_refs (decls server_d_ts)) /\
    In n (map dname (decls common_d_ts)).
Proof.
  intros n. split.
  - intros H. each_of H ltac:(split; in_list).
  - intros [U D].
    each_of D ltac:(first
      [ solve [in_list]
      | apply mem_In in U; vm_compute in U; discriminate U ]).
Qed.

Lemma imports_are_the_names_used_witness :
  In "PlayerData" (imported server_d_ts) /\
  In "PlayerData" (flat_map decl_refs (decls server_d_ts)) /\
  In "PlayerData" (map dname (decls common_d_ts)).
Proof.
  assert (H : In "PlayerData" (imported server_d_ts)) by in_list.
  split; [exact H |].
  apply (proj1 (imports_are_the_names_used "PlayerData") H).
Defined.



(** X7: no name is declared twice: the fifteen declarations have
    distinct names, and within each declaration the operations have
    distinct names (no overloads) and so have the data fields. *)
Theorem names_are_declared_once :
  NoDup declared /\
  forall d, In d all_decls ->
    NoDup (map mname (methods d)) /\ NoDup (map sname (properties d)).
Proof.
  split.
  - apply nodupb_NoDup. vm_compute. reflexivity.
  - intros d Hd.
    assert (C : forallb (fun d => nodupb (map mname (methods d))
                                  && nodupb (map sname (properties d)))
                        all_decls = true) by (vm_compute; reflexivity).
    rewrite forallb_forall in C. specialize (C d Hd).
    apply andb_true_iff in C. destruct C.
    split; apply nodupb_NoDup; assumption.
Qed.

Lemma names_are_declared_once_witness :
  In XPlayer all_decls /\ NoDup (map mname (methods XPlayer)).
Proof.
  assert (H : In XPlayer all_decls) by in_list.
  split; [exact H |].
  destruct names_are_declared_once as [_ N].
  apply (N XPlayer H).
Defined.

(** X8: in every declared signature the required parameters come
    first, then the optional ones, then at most one rest parameter, so
    any call that supplies the required arguments in order is accepted. *)
Theorem optional_parameters_trail :
  forall d m, In d all_decls -> In m (methods d) ->
    exists rs os vs, mparams m = rs ++ os ++ vs /\
      Forall (fun s => sarity s = Required) rs /\
      Forall (fun s => sarity s = Optional) os /\
      (vs = [] \/ exists v, vs = [v] /\ sarity v = Rest).
Proof.
  intros d m Hd Hm. apply params_ordered_split.
  assert (C : forallb (fun d =>
                forallb (fun m => params_ordered false (mparams m))
                        (methods d)) all_decls = true)
    by (vm_compute; reflexivity).
  exact (each_method _ _ C d m Hd Hm).
Qed.

Lemma optional_parameters_trail_witness :
  In XPlayer all_decls /\
  In {| mname := "triggerEvent"; mtparams := [];
        mparams := [req "eventName" TString; rest "args" (TArray TAny)];
        mret := TVoid; mbody := None |} (methods XPlayer) /\
  exists rs os vs,
    [req "eventName" TString; rest "args" (TArray TAny)] = rs ++ os ++ vs /\
    Forall (fun s => sarity s = Required) rs /\
    Forall (fun s => sarity s = Optional) os /\
    (vs = [] \/ exists v, vs = [v] /\ sarity v = Rest).
Proof.
  assert (H : In XPlayer all_decls) by in_list.
  split; [exact H |]. split; [in_list |].
  apply (optional_parameters_trail XPlayer
           {| mname := "triggerEvent"; mtparams := [];
              mparams := [req "eventName" TString;
                          rest "args" (TArray TAny)];
              mret := TVoid; mbody := None |} H).
  in_list.
Defined.

(** X9: data fields of the same name have the same type in every
    declaration that has them ([name], [label], [weight], [grade],
    ...), with one exception: [components] is [any[]] in LoadoutItem and
    [WeaponComponent[]] in Weapon. *)
Theorem same_named_fields_agree :
  option_map stype (find_slot "components" (properties LoadoutItem)) =
    Some (TArray TAny) /\
  option_map stype (find_slot "components" (properties Weapon)) =
    Some (TArray (Named "WeaponComponent")) /\
  forall d1 d2 s1 s2, In d1 all_decls -> In d2 all_decls ->
    In s1 (properties d1) -> In s2 (properties d2) ->
    sname s1 = sname s2 ->
    stype s1 = stype s2 \/ sname s1 = "components".
Proof.
  split; [reflexivity |]. split; [reflexivity |].
  intros d1 d2 s1 s2 H1 H2 P1 P2 E.
  assert (C : forallb (fun d1 =>
                forallb (fun s1 =>
                  forallb (fun d2 =>
                    forallb (fun s2 =>
                      negb (String.eqb (sname s1) (sname s2))
                      || ty_eqb (stype s1) (stype s2)
                      || String.eqb (sname s1) "components")
                      (properties d2)) all_decls)
                  (properties d1)) all_decls = true)
    by (vm_compute; reflexivity).
  pose proof (each_property _ _ C d1 s1 H1 P1) as C1. cbv beta in C1.
  pose proof (each_property _ _ C1 d2 s2 H2 P2) as C2. cbv beta in C2.
  apply String.eqb_eq in E. rewrite E in C2. simpl in C2.
  apply orb_true_iff in C2. destruct C2 as [T | N].
  - left. apply ty_eqb_eq. exact T.
  - right. apply String.eqb_eq. exact N.
Qed.

Lemma same_named_fields_agree_witness :
  In PlayerData all_decls /\ In InventoryItem all_decls /\
  In (req "weight" TNumber) (properties PlayerData) /\
  In (req "weight" TNumber) (properties InventoryItem) /\
  (TNumber = TNumber \/ "weight" = "components").
Proof.
  assert (H1 : In PlayerData all_decls) by in_list.
  assert (H2 : In InventoryItem all_decls) by in_list.
  assert (P1 : In (req "weight" TNumber) (properties PlayerData)) by in_list.
  assert (P2 : In (req "weight" TNumber) (properties InventoryItem))
    by in_list.
  split; [exact H1 |]. split; [exact H2 |].
  split; [exact P1 |]. split; [exact P2 |].
  destruct same_named_fields_agree as (_ & _ & H).
  apply (H PlayerData InventoryItem _ _ H1 H2 P1 P2 eq_refl).
Defined.

(** X10: every data field of every declaration is required (none is
    declared with [?]) and its type mentions no function type: the
    shapes carry data only, operations being declared as methods. *)
Theorem fields_are_required_data :
  forall d s, In d all_decls -> In s (properties d) ->
    sarity s = Required /\ mentions_function (stype s) = false.
Proof.
  intros d s Hd Hs.
  assert (C : forallb (fun d =>
                forallb (fun s => arity_eqb (sarity s) Required
                                  && negb (mentions_function (stype s)))
                        (properties d)) all_decls = true)
    by (vm_compute; reflexivity).
  pose proof (each_property _ _ C d s Hd Hs) as E. cbv beta in E.
  apply andb_true_iff in E. destruct E as [A F].
  split; [apply arity_eqb_eq; exact A | apply negb_true_iff; exact F].
Qed.

Lemma fields_are_required_data_witness :
  In ConfigJob all_decls /\
  In (req "grades" (TRef "Record" [TString; Named "JobGrade"]))
     (properties ConfigJob) /\
  mentions_function (TRef "Record" [TString; Named "JobGrade"]) = false.
Proof.
  assert (H : In ConfigJob all_decls) by in_list.
  assert (P : In (req "grades" (TRef "Record" [TString; Named "JobGrade"]))
                 (properties ConfigJob)) by in_list.
  split; [exact H |]. split; [exact P |].
  apply (fields_are_required_data ConfigJob _ H P).
Defined.



(** X12: every operation of XPlayer, OneSync, Math and Common carries a
    documentation block, every documentation block in the two files is
    directly followed by the member it documents, and in Table only
    SizeOf and Sort are documented. *)
Theorem operations_are_documented :
  map mname (filter (fun m => negb (is_nil (doc_of (mname m) Table)))
                    (methods Table)) = ["SizeOf"; "Sort"] /\
  forall d, In d all_decls ->
    docs_attached (dbody d) = true /\
    forall m, In d [XPlayer; OneSync; Math; Common] -> In m (methods d) ->
      is_nil (doc_of (mname m) d) = false.
Proof.
  split; [vm_compute; reflexivity |].
  intros d Hd. split.
  - each_of Hd ltac:(vm_compute; reflexivity).
  - intros m Hs Hm.
    assert (C : forallb (fun d =>
                  forallb (fun m => negb (is_nil (doc_of (mname m) d)))
                          (methods d)) [XPlayer; OneSync; Math; Common]
                = true) by (vm_compute; reflexivity).
    apply negb_true_iff. exact (each_method _ _ C d m Hs Hm).
Qed.

Lemma operations_are_documented_witness :
  In Common all_decls /\ docs_attached (dbody Common) = true /\
  In Common [XPlayer; OneSync; Math; Common] /\
  In {| mname := "GetWeaponList"; mtparams := []; mparams := [];
        mret := TArray (Named "Weapon"); mbody := None |}
     (methods Common) /\
  is_nil (doc_of "GetWeaponList" Common) = false.
Proof.
  assert (H : In Common all_decls) by in_list.
  destruct operations_are_documented as [_ D].
  destruct (D Common H) as [A M].
  split; [exact H |]. split; [exact A |]. split; [in_list |].
  split; [in_list |].
  apply (M {| mname := "GetWeaponList"; mtparams := []; mparams := [];
              mret := TArray (Named "Weapon"); mbody := None |}); in_list.
Defined.

(** X13: XPlayer declares no data field beyond those of PlayerData:
    every data field of the class is a field of the interface it
    implements, with the same name, arity and type. *)
Theorem XPlayer_fields_are_PlayerData_fields :
  forall s, In s (properties XPlayer) -> In s (properties PlayerData).
Proof.
  intros s Hs. each_of Hs ltac:(in_list).
Qed.

Lemma XPlayer_fields_are_PlayerData_fields_witness :
  In (req "maxWeight" TNumber) (properties XPlayer) /\
  In (req "maxWeight" TNumber) (properties PlayerData).
Proof.
  assert (H : In (req "maxWeight" TNumber) (properties XPlayer)) by in_list.
  split; [exact H |].
  apply (XPlayer_fields_are_PlayerData_fields _ H).
Defined.
